(** * grpc-gateway [runtime/context.go]: request annotation

    A shallow embedding of [runtime/context.go] and of the library
    functions it calls, followed by the properties of the annotation
    pipeline: timeout decoding, binary header decoding, the header walk,
    the forwarded chain, annotator merging and the server metadata
    accessors.

    Conventions of the embedding:
    - Go strings and byte slices are byte sequences: [string] and
      [list ascii], the characters being the 256 values of [ascii];
    - a Go map whose iteration order matters ([http.Header]) is the list
      of its entries in the order of the iteration; a map that is only
      looked up and updated ([metadata.MD]) is a [gmap];
    - a function with results [(value, error)] returns a [result]; the
      three operations whose [nil] results the callers test return Go's
      tuple, with [None] for [nil];
    - contexts are immutable chains of derivations, as in [context];
    - what the program reads from its process (the global tracer, the
      default timeout, the clock) is gathered in [Env];
    - the server span is finished and an unsplittable remote address is
      logged without any effect on the returned values; these two
      effects are left out. *)

From Stdlib Require Import ZArith Ascii String Lia.
From stdpp Require Import gmap strings list.

Local Open Scope string_scope.
Local Open Scope list_scope.
Local Open Scope Z_scope.

(** ** Results of fallible functions *)

Inductive result (E A : Type) : Type :=
| Ok (a : A)
| Err (e : E).
Arguments Ok {E A} a.
Arguments Err {E A} e.

Definition is_err {E A} (r : result E A) : Prop :=
  match r with Ok _ => False | Err _ => True end.

(** The error monad, with stdpp's [x ← r; k] notation. *)
#[global] Instance result_ret {E} : MRet (result E) := fun _ a => Ok a.
#[global] Instance result_bind {E} : MBind (result E) := fun _ _ k r =>
  match r with Ok a => k a | Err e => Err e end.

(** ** Bytes and strings as Go has them *)

Module GoString.

Definition byteZ (c : ascii) : Z := Z.of_N (N_of_ascii c).

(** [byte(z)]: conversion to a byte keeps the low eight bits. *)
Definition Zbyte (z : Z) : ascii := ascii_of_N (Z.to_N (z mod 256)).

Definition between (lo hi c : ascii) : bool :=
  (byteZ lo <=? byteZ c) && (byteZ c <=? byteZ hi).

Definition isUpper (c : ascii) : bool := between "A" "Z" c.
Definition isLower (c : ascii) : bool := between "a" "z" c.
Definition isDigit (c : ascii) : bool := between "0" "9" c.

(** [s[i]]; the program only indexes inside the string. *)
Definition byte_at (s : string) (i : nat) : ascii :=
  match String.get i s with Some c => c | None => "000"%char end.

(** [s[lo:hi]] *)
Definition slice (s : string) (lo hi : nat) : string :=
  String.substring lo (hi - lo) s.

(** [s[lo:]] *)
Fixpoint drop (n : nat) (s : string) : string :=
  match n, s with
  | O, _ => s
  | S n', String _ s' => drop n' s'
  | S _, EmptyString => EmptyString
  end.

(** [strings.HasPrefix] *)
Fixpoint HasPrefix (s p : string) : bool :=
  match p, s with
  | EmptyString, _ => true
  | String a p', String b s' => if Ascii.eqb a b then HasPrefix s' p' else false
  | String _ _, EmptyString => false
  end.

(** [strings.HasSuffix]:
    [len(s) >= len(suffix) && s[len(s)-len(suffix):] == suffix]. *)
Definition HasSuffix (s suffix : string) : bool :=
  (String.length suffix <=? String.length s)%nat
  && String.eqb (drop (String.length s - String.length suffix) s) suffix.

Definition lowerByte (c : ascii) : ascii :=
  if isUpper c then Zbyte (byteZ c + 32) else c.

Definition upperByte (c : ascii) : ascii :=
  if isLower c then Zbyte (byteZ c - 32) else c.

Fixpoint mapBytes (f : ascii -> ascii) (s : string) : string :=
  match s with
  | EmptyString => EmptyString
  | String c s' => String (f c) (mapBytes f s')
  end.

(** [strings.ToLower] on its ASCII path: the bytes ['A'..'Z'] move to
    ['a'..'z'].  A string that holds a byte from 0x80 up goes through
    the Unicode case tables in Go; that path is not modelled and such
    bytes are left as they are.  (The names that [net/http] accepts as
    header names are ASCII tokens.) *)
Definition ToLower (s : string) : string := mapBytes lowerByte s.

Fixpoint bytes (s : string) : list ascii :=
  match s with
  | EmptyString => []
  | String c s' => c :: bytes s'
  end.

Fixpoint of_bytes (l : list ascii) : string :=
  match l with
  | [] => EmptyString
  | c :: l' => String c (of_bytes l')
  end.

End GoString.
Import GoString.

(** ** [strconv.ParseInt(s, 10, 64)] *)

Module Strconv.

Inductive NumError := ErrSyntax | ErrRange.

Definition maxUint64 : Z := 2 ^ 64 - 1.

(** The digit loop of [ParseUint] for base 10 and 64 bits; [n] is the
    unsigned accumulator. *)
Fixpoint parseUintLoop (s : string) (n : Z) : result NumError Z :=
  match s with
  | EmptyString => Ok n
  | String c rest =>
      if isDigit c then
        let d := byteZ c - byteZ "0" in
        if maxUint64 / 10 + 1 <=? n then Err ErrRange
        else
          let n10 := n * 10 in
          let n1 := (n10 + d) mod 2 ^ 64 in
          if (n1 <? n10) || (maxUint64 <? n1) then Err ErrRange
          else parseUintLoop rest n1
      else Err ErrSyntax
  end.

Definition ParseUint10 (s : string) : result NumError Z :=
  match s with
  | EmptyString => Err ErrSyntax
  | _ => parseUintLoop s 0
  end.

Definition ParseInt10 (s : string) : result NumError Z :=
  match s with
  | EmptyString => Err ErrSyntax
  | String c rest =>
      let '(neg, digits) :=
        if Ascii.eqb c "+" then (false, rest)
        else if Ascii.eqb c "-" then (true, rest)
        else (false, s) in
      match ParseUint10 digits with
      | Err e => Err e
      | Ok un =>
          let cutoff := 2 ^ 63 in
          if negb neg && (cutoff <=? un) then Err ErrRange
          else if neg && (cutoff <? un) then Err ErrRange
          else Ok (if neg then - un else un)
      end
  end.

End Strconv.

(** ** [time.Duration] *)

Module Time.

(** A duration is a signed 64-bit count of nanoseconds. *)
Definition Duration := Z.

Definition wrap64 (z : Z) : Z := (z + 2 ^ 63) mod 2 ^ 64 - 2 ^ 63.

(** Multiplication of two [int64] values. *)
Definition mul64 (a b : Z) : Z := wrap64 (a * b).

Definition Nanosecond : Duration := 1.
Definition Microsecond : Duration := 1000 * Nanosecond.
Definition Millisecond : Duration := 1000 * Microsecond.
Definition Second : Duration := 1000 * Millisecond.
Definition Minute : Duration := 60 * Second.
Definition Hour : Duration := 60 * Minute.

End Time.
Import Time.

(** ** [encoding/base64]: the standard alphabet, padded and raw *)

Module Base64.

Definition encodeStd : string :=
  "ABCDEFGHIJKLMNOPQRSTUVWXYZabcdefghijklmnopqrstuvwxyz0123456789+/".

(** An encoding is the standard alphabet with or without a padding
    character ([NoPadding] is [None]); neither encoding is strict. *)
Record Encoding := { padChar : option ascii }.

Definition StdEncoding : Encoding := {| padChar := Some "="%char |}.
Definition RawStdEncoding : Encoding := {| padChar := None |}.

(** [enc.encode[i]] *)
Definition encodeByte (i : Z) : ascii := byte_at encodeStd (Z.to_nat i).

Fixpoint indexFrom (c : ascii) (s : string) (i : Z) : option Z :=
  match s with
  | EmptyString => None
  | String a s' => if Ascii.eqb a c then Some i else indexFrom c s' (i + 1)
  end.

(** [enc.decodeMap[c]]: the position of [c] in the alphabet, 0xFF for
    every other byte. *)
Definition decodeMap (c : ascii) : Z :=
  match indexFrom c encodeStd 0 with Some i => i | None => 255 end.

(** [Encode]: three source bytes give four characters; a last block of
    one or two bytes gives two or three characters, padded to four when
    the encoding pads. *)
Fixpoint Encode (enc : Encoding) (src : list ascii) : list ascii :=
  match src with
  | [] => []
  | [a] =>
      let val := Z.shiftl (byteZ a) 16 in
      [encodeByte (Z.land (Z.shiftr val 18) 63);
       encodeByte (Z.land (Z.shiftr val 12) 63)]
      ++ match padChar enc with Some p => [p; p] | None => [] end
  | [a; b] =>
      let val := Z.lor (Z.shiftl (byteZ a) 16) (Z.shiftl (byteZ b) 8) in
      [encodeByte (Z.land (Z.shiftr val 18) 63);
       encodeByte (Z.land (Z.shiftr val 12) 63);
       encodeByte (Z.land (Z.shiftr val 6) 63)]
      ++ match padChar enc with Some p => [p] | None => [] end
  | a :: b :: c :: rest =>
      let val := Z.lor (Z.lor (Z.shiftl (byteZ a) 16) (Z.shiftl (byteZ b) 8))
                       (byteZ c) in
      [encodeByte (Z.land (Z.shiftr val 18) 63);
       encodeByte (Z.land (Z.shiftr val 12) 63);
       encodeByte (Z.land (Z.shiftr val 6) 63);
       encodeByte (Z.land val 63)]
      ++ Encode enc rest
  end.

Definition EncodeToString (enc : Encoding) (src : list ascii) : string :=
  of_bytes (Encode enc src).

(** [CorruptInputError]; the offset it carries is not kept. *)
Inductive CorruptInputError := CorruptInput.

Definition isNewline (c : ascii) : bool :=
  Ascii.eqb c "010" || Ascii.eqb c "013".

Fixpoint skipNewlines (src : list ascii) : list ascii :=
  match src with
  | c :: rest => if isNewline c then skipNewlines rest else src
  | [] => []
  end.

(** The end of [decodeQuantum]: the first [dlen - 1] bytes of the 24
    bits assembled from the sextets [dbuf] (missing sextets are 0). *)
Definition quantumBytes (dbuf : list Z) : list ascii :=
  let d i := nth i dbuf 0 in
  let val := Z.lor (Z.lor (Z.lor (Z.shiftl (d 0%nat) 18) (Z.shiftl (d 1%nat) 12))
                          (Z.shiftl (d 2%nat) 6)) (d 3%nat) in
  take (length dbuf - 1)
       [Zbyte (Z.shiftr val 16); Zbyte (Z.shiftr val 8); Zbyte val].

(** [Decode] as the repetition of [decodeQuantum] over the input;
    [dbuf] holds the sextets read so far in the current quantum
    ([j = length dbuf]).  The word-at-a-time fast paths of [Decode]
    produce the same bytes and are not separate here. *)
Fixpoint decodeLoop (enc : Encoding) (src : list ascii) (dbuf : list Z)
  : result CorruptInputError (list ascii) :=
  match src with
  | [] =>
      match dbuf with
      | [] => Ok []
      | [_] => Err CorruptInput
      | _ => match padChar enc with
             | Some _ => Err CorruptInput
             | None => Ok (quantumBytes dbuf)
             end
      end
  | c :: rest =>
      let out := decodeMap c in
      if negb (out =? 255) then
        let dbuf' := dbuf ++ [out] in
        if (length dbuf' =? 4)%nat then
          match decodeLoop enc rest [] with
          | Ok tl => Ok (quantumBytes dbuf' ++ tl)
          | Err e => Err e
          end
        else decodeLoop enc rest dbuf'
      else if isNewline c then decodeLoop enc rest dbuf
      else if negb (bool_decide (Some c = padChar enc)) then Err CorruptInput
      else
        (* padding reached *)
        match length dbuf with
        | 0%nat | 1%nat => Err CorruptInput
        | 2%nat =>
            (* a second padding character is expected *)
            match skipNewlines rest with
            | [] => Err CorruptInput
            | c2 :: rest2 =>
                if negb (bool_decide (Some c2 = padChar enc)) then Err CorruptInput
                else match skipNewlines rest2 with
                     | [] => Ok (quantumBytes dbuf)
                     | _ :: _ => Err CorruptInput
                     end
            end
        | _ =>
            match skipNewlines rest with
            | [] => Ok (quantumBytes dbuf)
            | _ :: _ => Err CorruptInput
            end
        end
  end.

Definition DecodeString (enc : Encoding) (s : string)
  : result CorruptInputError (list ascii) :=
  decodeLoop enc (bytes s) [].

End Base64.

(** ** [net/textproto.CanonicalMIMEHeaderKey] *)

Module Textproto.

(** [validHeaderFieldByte]: the token characters of RFC 7230. *)
Definition validHeaderFieldByte (c : ascii) : bool :=
  isUpper c || isLower c || isDigit c
  || existsb (Ascii.eqb c) (bytes "!#$%&'*+-.^_`|~").

Fixpoint allValid (s : string) : bool :=
  match s with
  | EmptyString => true
  | String c s' => validHeaderFieldByte c && allValid s'
  end.

(** The rewriting loop of [canonicalMIMEHeaderKey]: upper case for the
    first letter and for each letter after a dash, lower case for the
    others. *)
Fixpoint canonicalize (upper : bool) (s : string) : string :=
  match s with
  | EmptyString => EmptyString
  | String c s' =>
      let c' := if upper then upperByte c else lowerByte c in
      String c' (canonicalize (Ascii.eqb c' "-") s')
  end.

(** A key holding a byte that is not a token character comes back
    unchanged. *)
Definition CanonicalMIMEHeaderKey (s : string) : string :=
  if allValid s then canonicalize true s else s.

End Textproto.

(** ** [net.SplitHostPort] *)

Module Net.

Inductive AddrError :=
| missingPort
| tooManyColons
| missingBracket
| unexpectedOpen
| unexpectedClose.

(** [bytealg.IndexByteString]: first position of [c], -1 if none. *)
Fixpoint indexFrom (s : string) (c : ascii) (i : Z) : Z :=
  match s with
  | EmptyString => -1
  | String a s' => if Ascii.eqb a c then i else indexFrom s' c (i + 1)
  end.

Definition IndexByteString (s : string) (c : ascii) : Z := indexFrom s c 0.

(** [last]: last position of [c], -1 if none. *)
Fixpoint lastFrom (s : string) (c : ascii) (i found : Z) : Z :=
  match s with
  | EmptyString => found
  | String a s' => lastFrom s' c (i + 1) (if Ascii.eqb a c then i else found)
  end.

Definition last (s : string) (c : ascii) : Z := lastFrom s c 0 (-1).

Definition SplitHostPort (hostport : string) : result AddrError (string * string) :=
  let i := last hostport ":" in
  if i <? 0 then Err missingPort
  else
    let finish (host : string) (j k : nat) :=
      if 0 <=? IndexByteString (drop j hostport) "[" then Err unexpectedOpen
      else if 0 <=? IndexByteString (drop k hostport) "]" then Err unexpectedClose
      else Ok (host, drop (Z.to_nat (i + 1)) hostport) in
    if Ascii.eqb (byte_at hostport 0) "[" then
      let end_ := IndexByteString hostport "]" in
      if end_ <? 0 then Err missingBracket
      else if end_ + 1 =? Z.of_nat (String.length hostport) then Err missingPort
      else if end_ + 1 =? i then
        finish (slice hostport 1 (Z.to_nat end_)) 1%nat (Z.to_nat (end_ + 1))
      else if Ascii.eqb (byte_at hostport (Z.to_nat (end_ + 1))) ":" then Err tooManyColons
      else Err missingPort
    else
      let host := slice hostport 0 (Z.to_nat i) in
      if 0 <=? IndexByteString host ":" then Err tooManyColons
      else finish host 0%nat 0%nat.

End Net.

(** ** [google.golang.org/grpc/metadata] *)

Module Metadata.

(** [type MD map[string][]string] *)
Abbreviation MD := (gmap string (list string)).

(** [md[k]]: the values under [k], none when the key is absent. *)
Definition valuesOf (md : MD) (k : string) : list string :=
  default [] (md !! k).

(** [md[key] = append(md[key], s)] *)
Definition appendValue (md : MD) (key s : string) : MD :=
  <[key := valuesOf md key ++ [s]]> md.

(** The loop of [Pairs] over [kv = k1, v1, k2, v2, ...]: keys are
    lowercased.  [Pairs] panics on a list of odd length; its caller
    here only ever appends a key together with its value. *)
Fixpoint pairsLoop (kv : list string) (md : MD) : MD :=
  match kv with
  | k :: v :: rest => pairsLoop rest (appendValue md (ToLower k) v)
  | _ => md
  end.

Definition Pairs (kv : list string) : MD := pairsLoop kv ∅.

(** [out[k] = append(out[k], v...)] for every entry [(k, v)] of [md]. *)
Definition joinInto (out md : MD) : MD :=
  union_with (fun a b => Some (a ++ b)) out md.

(** [Join(mds...)] *)
Definition Join (mds : list MD) : MD := fold_left joinInto mds ∅.

End Metadata.
Import Metadata.

(** ** [ServerMetadata] *)

(** A [nil] map is [None]. *)
Record ServerMetadata := {
  HeaderMD : option MD;
  TrailerMD : option MD
}.

(** ** [opentracing]: spans *)

Module Opentracing.

Definition SpanContext := string.

(** A span started by [StartSpan(name, ext.RPCServerOption(parent))]. *)
Record Span := {
  operationName : string;
  childOf : SpanContext
}.

Definition StartSpan (name : string) (wireContext : SpanContext) : Span :=
  {| operationName := name; childOf := wireContext |}.

End Opentracing.

(** ** [context] *)

Module Ctx.

(** The context keys in play: the unexported key types of this
    package, of [grpc/metadata] and of [opentracing], and the keys of
    other packages. *)
Inductive Key :=
| serverMetadataKey
| mdIncomingKey
| mdOutgoingKey
| activeSpanKey
| otherKey (n : nat).

#[global] Instance Key_eq_dec : EqDecision Key.
Proof. solve_decision. Defined.

(** The dynamic values stored under them. *)
Inductive Value :=
| VServerMetadata (md : ServerMetadata)
| VMD (md : MD)
| VRawMD (md : MD)
| VSpan (s : Opentracing.Span)
| VOther (n : nat).

(** Times are nanosecond counts. *)
Definition Time := Z.

(** A context is the chain of its derivations. *)
Inductive Context :=
| Background
| valueCtx (parent : Context) (key : Key) (val : Value)
| cancelCtx (parent : Context)
| timerCtx (parent : Context) (deadline : Time).

Definition WithValue (parent : Context) (key : Key) (val : Value) : Context :=
  valueCtx parent key val.

(** [ctx.Value(key)]; [None] is [nil]. *)
Fixpoint Value_ (ctx : Context) (key : Key) : option Value :=
  match ctx with
  | Background => None
  | valueCtx parent k v => if decide (k = key) then Some v else Value_ parent key
  | cancelCtx parent => Value_ parent key
  | timerCtx parent _ => Value_ parent key
  end.

(** [ctx.Deadline()] *)
Fixpoint Deadline (ctx : Context) : option Time :=
  match ctx with
  | Background => None
  | valueCtx parent _ _ => Deadline parent
  | cancelCtx parent => Deadline parent
  | timerCtx _ d => Some d
  end.

(** [WithDeadline]: a parent deadline that is already earlier stays
    in force. *)
Definition WithDeadline (parent : Context) (d : Time) : Context :=
  match Deadline parent with
  | Some cur => if cur <? d then cancelCtx parent else timerCtx parent d
  | None => timerCtx parent d
  end.

(** [WithTimeout(parent, timeout)] at clock reading [now]. *)
Definition WithTimeout (now : Time) (parent : Context) (timeout : Duration) : Context :=
  WithDeadline parent (now + timeout).

End Ctx.
Import Ctx.

(** [opentracing.ContextWithSpan] *)
Definition ContextWithSpan (ctx : Context) (span : Opentracing.Span) : Context :=
  WithValue ctx activeSpanKey (VSpan span).

(** [metadata.NewOutgoingContext], [metadata.FromOutgoingContext],
    [metadata.NewIncomingContext], [metadata.FromIncomingContext] *)
Definition NewOutgoingContext (ctx : Context) (md : MD) : Context :=
  WithValue ctx mdOutgoingKey (VRawMD md).

Definition FromOutgoingContext (ctx : Context) : option MD :=
  match Value_ ctx mdOutgoingKey with
  | Some (VRawMD md) => Some (Join [md])
  | _ => None
  end.

Definition NewIncomingContext (ctx : Context) (md : MD) : Context :=
  WithValue ctx mdIncomingKey (VMD md).

Definition FromIncomingContext (ctx : Context) : option MD :=
  match Value_ ctx mdIncomingKey with
  | Some (VMD md) => Some md
  | _ => None
  end.

(** ** [net/http]: the request *)

Module Http.

(** [type Header map[string][]string].  The list gives the entries of
    the map in the order in which [range] enumerates them in the run
    at hand; the keys of a map are pairwise distinct. *)
Definition Header := list (string * list string).

Definition wf_header (h : Header) : Prop := NoDup (h.*1).

(** [h[key]] *)
Fixpoint lookup (h : Header) (key : string) : list string :=
  match h with
  | [] => []
  | (k, vals) :: rest => if String.eqb k key then vals else lookup rest key
  end.

(** [h.Get(key)]: the first value stored under the canonical form of
    [key], the empty string if there is none. *)
Definition Get (h : Header) (key : string) : string :=
  match lookup h (Textproto.CanonicalMIMEHeaderKey key) with
  | [] => ""
  | v :: _ => v
  end.

Record Request := {
  Header_ : Header;
  Host : string;
  RemoteAddr : string;
  URLPath : string
}.

End Http.
Import Http.

(** ** The process-wide settings read by the program *)

Record Env := {
  (** [opentracing.GlobalTracer().Extract(HTTPHeaders, carrier)] *)
  Extract : Header -> result string Opentracing.SpanContext;
  (** the package variable [DefaultContextTimeout] *)
  DefaultContextTimeout : Duration;
  (** [time.Now()] *)
  now : Time
}.

(** ** [status.Errorf] *)

Inductive Code := OK | InvalidArgument | Internal.

(** The three messages the program formats. *)
Inductive Message :=
| InvalidRequestParameters (err : string)
| InvalidGrpcTimeout (tm : string)
| InvalidBinaryHeader (key : string) (err : Base64.CorruptInputError).

Record Status := { code : Code; message : Message }.

Definition Errorf (c : Code) (m : Message) : Status :=
  {| code := c; message := m |}.

(** ** [ServeMux] *)

(** Modelled from the spec: the [ServeMux] structure of [runtime/mux.go],
    of which the program reads the configured incoming-header matcher and
    the ordered list of metadata annotators. *)
Record ServeMux := {
  incomingHeaderMatcher : string -> string * bool;
  metadataAnnotators : list (Context -> Request -> MD)
}.

(** ** The program: constants *)

Definition MetadataHeaderPrefix : string := "Grpc-Metadata-".
Definition MetadataPrefix : string := "grpcgateway-".
Definition MetadataTrailerPrefix : string := "Grpc-Trailer-".
Definition metadataGrpcTimeout : string := "Grpc-Timeout".
Definition metadataHeaderBinarySuffix : string := "-Bin".
Definition xForwardedFor : string := "X-Forwarded-For".
Definition xForwardedHost : string := "X-Forwarded-Host".

(** ** [timeoutUnitToDuration] and [timeoutDecode] *)

Definition timeoutUnitToDuration (u : ascii) : Duration * bool :=
  if Ascii.eqb u "H" then (Hour, true)
  else if Ascii.eqb u "M" then (Minute, true)
  else if Ascii.eqb u "S" then (Second, true)
  else if Ascii.eqb u "m" then (Millisecond, true)
  else if Ascii.eqb u "u" then (Microsecond, true)
  else if Ascii.eqb u "n" then (Nanosecond, true)
  else (0, false).

Inductive TimeoutError :=
| TimeoutTooShort (s : string)
| TimeoutUnitNotRecognized (s : string)
| TimeoutParse (e : Strconv.NumError).

Definition timeoutDecode (s : string) : result TimeoutError Duration :=
  let size := String.length s in
  if (size <? 2)%nat then Err (TimeoutTooShort s)
  else
    match timeoutUnitToDuration (byte_at s (size - 1)) with
    | (_, false) => Err (TimeoutUnitNotRecognized s)
    | (d, true) =>
        match Strconv.ParseInt10 (slice s 0 (size - 1)) with
        | Err e => Err (TimeoutParse e)
        | Ok t => Ok (mul64 d t)
        end
    end.


(** ** [isPermanentHTTPHeader] *)

Definition isPermanentHTTPHeader (hdr : string) : bool :=
  bool_decide (hdr ∈ [
    "Accept";
    "Accept-Charset";
    "Accept-Language";
    "Accept-Ranges";
    "Authorization";
    "Cache-Control";
    "Content-Type";
    "Cookie";
    "Date";
    "Expect";
    "From";
    "Host";
    "If-Match";
    "If-Modified-Since";
    "If-None-Match";
    "If-Schedule-Tag-Match";
    "If-Unmodified-Since";
    "Max-Forwards";
    "Origin";
    "Pragma";
    "Referer";
    "User-Agent";
    "Via";
    "Warning"]).

(** Modelled from the spec: the default incoming-header matcher of
    [runtime/mux.go].  Headers beginning with the custom prefix map to
    their suffix lowercased; headers of the permanent list map to the
    gateway prefix followed by their lowercased name; all other headers
    are dropped. *)
Definition DefaultHeaderMatcher (key : string) : string * bool :=
  if isPermanentHTTPHeader key then (MetadataPrefix +:+ ToLower key, true)
  else if HasPrefix key MetadataHeaderPrefix then
    (ToLower (drop (String.length MetadataHeaderPrefix) key), true)
  else ("", false).

(** Modelled from the spec: [NewServeMux] of [runtime/mux.go] without
    options, the default configuration, and the option [WithMetadata]
    that registers one more annotator after those already there. *)
Definition NewServeMux : ServeMux :=
  {| incomingHeaderMatcher := DefaultHeaderMatcher;
     metadataAnnotators := [] |}.

Definition WithMetadata (annotator : Context -> Request -> MD) (mux : ServeMux) : ServeMux :=
  {| incomingHeaderMatcher := incomingHeaderMatcher mux;
     metadataAnnotators := metadataAnnotators mux ++ [annotator] |}.

(** ** [decodeBinHeader] *)

Definition decodeBinHeader (v : string)
  : result Base64.CorruptInputError (list ascii) :=
  if (String.length v mod 4 =? 0)%nat then
    (* Input was padded, or padding was not necessary. *)
    Base64.DecodeString Base64.StdEncoding v
  else Base64.DecodeString Base64.RawStdEncoding v.

(** ** [annotateContext] *)

(** The body of the inner loop over the values of one header: [key] is
    reassigned to its canonical form and carried to the next value;
    [pairs] grows by two strings at a time. *)
Definition headerValue (mux : ServeMux) (st : string * list string) (val : string)
  : result Status (string * list string) :=
  let '(key, pairs) := st in
  let key := Textproto.CanonicalMIMEHeaderKey key in
  (* For backwards-compatibility, pass through 'authorization' header
     with no prefix. *)
  let pairs :=
    if String.eqb key "Authorization" then pairs ++ ["authorization"; val]
    else pairs in
  match incomingHeaderMatcher mux key with
  | (h, true) =>
      if HasSuffix key metadataHeaderBinarySuffix then
        match decodeBinHeader val with
        | Err err => Err (Errorf InvalidArgument (InvalidBinaryHeader key err))
        | Ok b => Ok (key, pairs ++ [h; of_bytes b])
        end
      else Ok (key, pairs ++ [h; val])
  | (_, false) => Ok (key, pairs)
  end.

Fixpoint headerValues (mux : ServeMux) (vals : list string) (st : string * list string)
  : result Status (string * list string) :=
  match vals with
  | [] => Ok st
  | val :: vals' => st' ← headerValue mux st val; headerValues mux vals' st'
  end.

(** The outer loop, [for key, vals := range req.Header]. *)
Fixpoint headerWalk (mux : ServeMux) (h : Header) (pairs : list string)
  : result Status (list string) :=
  match h with
  | [] => Ok pairs
  | (key, vals) :: rest =>
      st ← headerValues mux vals (key, pairs);
      headerWalk mux rest st.2
  end.

(** The timeout in force: the header when it has a non-empty value, the
    process-wide default otherwise. *)
Definition resolveTimeout (env : Env) (req : Request) : result Status Duration :=
  let tm := Get (Header_ req) metadataGrpcTimeout in
  if negb (String.eqb tm "") then
    match timeoutDecode tm with
    | Err _ => Err (Errorf InvalidArgument (InvalidGrpcTimeout tm))
    | Ok timeout => Ok timeout
    end
  else Ok (DefaultContextTimeout env).

(** The forwarded host entry. *)
Definition forwardedHost (req : Request) (pairs : list string) : list string :=
  let host := Get (Header_ req) xForwardedHost in
  if negb (String.eqb host "") then pairs ++ [ToLower xForwardedHost; host]
  else if negb (String.eqb (Host req) "") then pairs ++ [ToLower xForwardedHost; Host req]
  else pairs.

(** The forwarded-for entry; an address that does not split is only
    logged. *)
Definition forwardedFor (req : Request) (pairs : list string) : list string :=
  let addr := RemoteAddr req in
  if negb (String.eqb addr "") then
    match Net.SplitHostPort addr with
    | Ok (remoteIP, _) =>
        let fwd := Get (Header_ req) xForwardedFor in
        if String.eqb fwd "" then pairs ++ [ToLower xForwardedFor; remoteIP]
        else pairs ++ [ToLower xForwardedFor; fwd +:+ ", " +:+ remoteIP]
    | Err _ => pairs
    end
  else pairs.

(** [for _, mda := range mux.metadataAnnotators] *)
Definition runAnnotators (annotators : list (Context -> Request -> MD))
    (ctx : Context) (req : Request) (md : MD) : MD :=
  fold_left (fun md mda => Join [md; mda ctx req]) annotators md.

(** The results are Go's three return values; [None] is [nil].  The
    server span is finished when the function returns, which touches the
    tracer only and none of the returned values. *)
Definition annotateContext (env : Env) (ctx : Context) (mux : ServeMux) (req : Request)
  : option Context * option MD * option Status :=
  match Extract env (Header_ req) with
  | Err err =>
      (None, None, Some (Errorf InvalidArgument (InvalidRequestParameters err)))
  | Ok wireContext =>
      let serverSpan := Opentracing.StartSpan (URLPath req) wireContext in
      let ctx := ContextWithSpan ctx serverSpan in
      match resolveTimeout env req with
      | Err e => (None, None, Some e)
      | Ok timeout =>
          match headerWalk mux (Header_ req) [] with
          | Err e => (None, None, Some e)
          | Ok pairs =>
              let pairs := forwardedHost req pairs in
              let pairs := forwardedFor req pairs in
              let ctx :=
                if negb (timeout =? 0) then WithTimeout (now env) ctx timeout
                else ctx in
              if (length pairs =? 0)%nat then (Some ctx, None, None)
              else
                let md := Pairs pairs in
                let md := runAnnotators (metadataAnnotators mux) ctx req md in
                (Some ctx, Some md, None)
          end
      end
  end.

(** ** [AnnotateContext] and [AnnotateIncomingContext] *)

Definition AnnotateContext (env : Env) (ctx : Context) (mux : ServeMux) (req : Request)
  : option Context * option Status :=
  let '(ctx, md, err) := annotateContext env ctx mux req in
  match err with
  | Some err => (None, Some err)
  | None =>
      match md with
      | None => (ctx, None)
      | Some md => ((fun c => NewOutgoingContext c md) <$> ctx, None)
      end
  end.

(** Attach metadata as incoming context. *)
Definition AnnotateIncomingContext (env : Env) (ctx : Context) (mux : ServeMux) (req : Request)
  : option Context * option Status :=
  let '(ctx, md, err) := annotateContext env ctx mux req in
  match err with
  | Some err => (None, Some err)
  | None =>
      match md with
      | None => (ctx, None)
      | Some md => ((fun c => NewIncomingContext c md) <$> ctx, None)
      end
  end.

(** ** [NewServerMetadataContext] and [ServerMetadataFromContext] *)

Definition NewServerMetadataContext (ctx : Context) (md : ServerMetadata) : Context :=
  WithValue ctx serverMetadataKey (VServerMetadata md).

(** The type assertion [ctx.Value(serverMetadataKey{}).(ServerMetadata)]
    yields the zero value and [false] when the value is absent or of
    another type. *)
Definition ServerMetadataFromContext (ctx : Context) : ServerMetadata * bool :=
  match Value_ ctx serverMetadataKey with
  | Some (VServerMetadata md) => (md, true)
  | _ => ({| HeaderMD := None; TrailerMD := None |}, false)
  end.

(** ** Specification-side vocabulary *)

(** The base-10 value of a digit string read after the accumulator [n],
    without any bound. *)
Fixpoint digitsValue (s : string) (n : Z) : Z :=
  match s with
  | EmptyString => n
  | String c rest => digitsValue rest (n * 10 + (byteZ c - 48))
  end.

Fixpoint allDigits (s : string) : bool :=
  match s with
  | EmptyString => true
  | String c rest => isDigit c && allDigits rest
  end.

(** [s] is a base-10 literal of the 64-bit signed integer [n]: an
    optional sign, at least one digit, and a value in range. *)
Definition isInt64Literal (s : string) (n : Z) : Prop :=
  exists (sign digits : string),
    s = sign +:+ digits /\ (sign = "" \/ sign = "+" \/ sign = "-") /\
    digits <> "" /\ allDigits digits = true /\
    n = (if String.eqb sign "-" then - digitsValue digits 0 else digitsValue digits 0) /\
    - 2 ^ 63 <= n < 2 ^ 63.

(** The unit table of the timeout encoding. *)
Definition unitTable : list (ascii * Duration) :=
  [("H"%char, 3600000000000); ("M"%char, 60000000000); ("S"%char, 1000000000);
   ("m"%char, 1000000); ("u"%char, 1000); ("n"%char, 1)].

Definition unitOf (u : ascii) : option Duration :=
  snd <$> find (fun p => Ascii.eqb (fst p) u) unitTable.

(** A [ServerMetadata] value was attached somewhere along the chain. *)
Fixpoint hasServerMetadata (ctx : Context) : bool :=
  match ctx with
  | Background => false
  | valueCtx parent serverMetadataKey (VServerMetadata _) => true
  | valueCtx parent _ _ => hasServerMetadata parent
  | cancelCtx parent => hasServerMetadata parent
  | timerCtx parent _ => hasServerMetadata parent
  end.

(** The value kept for one header value under the canonical key
    [ckey]: the decoded bytes when the key has the binary suffix. *)
Definition storedValue (ckey val : string) : string :=
  if HasSuffix ckey metadataHeaderBinarySuffix then
    match decodeBinHeader val with
    | Ok b => of_bytes b
    | Err _ => val
    end
  else val.

(** The strings that one value of a header with canonical key [ckey]
    adds to the pair list. *)
Definition emitted (mux : ServeMux) (ckey val : string) : list string :=
  (if String.eqb ckey "Authorization" then ["authorization"; val] else [])
  ++ match incomingHeaderMatcher mux ckey with
     | (h, true) => [h; storedValue ckey val]
     | (_, false) => []
     end.

(** A value that stops the walk: its header is matched, carries the
    binary suffix, and the value does not decode. *)
Definition undecodable (mux : ServeMux) (ckey val : string) : bool :=
  (incomingHeaderMatcher mux ckey).2
  && HasSuffix ckey metadataHeaderBinarySuffix
  && match decodeBinHeader val with Ok _ => false | Err _ => true end.

Definition walkPairs (mux : ServeMux) (h : Header) : list string :=
  flat_map (fun e => flat_map (emitted mux (Textproto.CanonicalMIMEHeaderKey e.1)) e.2) h.

Definition walkFails (mux : ServeMux) (h : Header) : bool :=
  existsb (fun e => existsb (undecodable mux (Textproto.CanonicalMIMEHeaderKey e.1)) e.2) h.

(** The values that follow a key lowercasing to [k] in the flat list
    [k1, v1, k2, v2, ...], in order. *)
Fixpoint valuesAt (k : string) (kv : list string) : list string :=
  match kv with
  | key :: v :: rest =>
      (if String.eqb (ToLower key) k then [v] else []) ++ valuesAt k rest
  | _ => []
  end.

(** The values that the headers [h], in iteration order, contribute to
    the metadata key [k]. *)
Definition headerValuesFor (mux : ServeMux) (k : string) (h : Header) : list string :=
  valuesAt k (walkPairs mux h).

(** The forwarded entries of a request on their own. *)
Definition forwardedPairs (req : Request) : list string :=
  forwardedFor req (forwardedHost req []).

(** The values that the annotators, in registration order, return for
    the key [k] on [(ctx, req)]. *)
Definition annotatorValues (mux : ServeMux) (ctx : Context) (req : Request) (k : string)
  : list string :=
  concat (map (fun mda => valuesOf (mda ctx req) k) (metadataAnnotators mux)).

(** The context handed to the annotators and returned: the incoming
    context with the server span, then the deadline when the timeout is
    not zero. *)
Definition derivedContext (env : Env) (ctx : Context) (req : Request)
    (wireContext : Opentracing.SpanContext) (timeout : Duration) : Context :=
  let ctx := ContextWithSpan ctx (Opentracing.StartSpan (URLPath req) wireContext) in
  if negb (timeout =? 0) then WithTimeout (now env) ctx timeout else ctx.

Definition evenLength (l : list string) : Prop := Nat.even (length l) = true.

(** The pair list of a request: header walk, then forwarded entries. *)
Definition allPairs (mux : ServeMux) (req : Request) : list string :=
  walkPairs mux (Header_ req) ++ forwardedPairs req.

(** The three ways in which annotation fails: the tracer rejects the
    carrier, the timeout header has a non-empty value that does not
    decode, a matched binary header has a value that does not decode. *)
Definition timeoutMalformed (req : Request) : Prop :=
  let tm := Get (Header_ req) metadataGrpcTimeout in
  tm <> "" /\ is_err (timeoutDecode tm).

Definition annotationFails (env : Env) (mux : ServeMux) (req : Request) : Prop :=
  is_err (Extract env (Header_ req))
  \/ timeoutMalformed req
  \/ walkFails mux (Header_ req) = true.

(** The timeout in force on a request whose timeout header is well
    formed. *)
Definition resolvedTimeout (env : Env) (req : Request) : Duration :=
  let tm := Get (Header_ req) metadataGrpcTimeout in
  if String.eqb tm "" then DefaultContextTimeout env
  else match timeoutDecode tm with Ok d => d | Err _ => 0 end.

(** The complete bag of a request with a non-empty pair list. *)
Definition fullBag (mux : ServeMux) (ctx' : Context) (req : Request) : MD :=
  runAnnotators (metadataAnnotators mux) ctx' req (Pairs (allPairs mux req)).

(** The client address of a request, when the remote address splits. *)
Definition clientIP (req : Request) : option string :=
  if String.eqb (RemoteAddr req) "" then None
  else match Net.SplitHostPort (RemoteAddr req) with
       | Ok (ip, _) => Some ip
       | Err _ => None
       end.

(** The bag made of the forwarded entries alone; no bag when there is
    neither a host nor a client address. *)
Definition forwardedBag (host : string) (ip : option string) : option MD :=
  match String.eqb host "", ip with
  | true, None => None
  | false, None => Some {[ "x-forwarded-host" := [host] ]}
  | true, Some ip => Some {[ "x-forwarded-for" := [ip] ]}
  | false, Some ip =>
      Some (<[ "x-forwarded-for" := [ip] ]> {[ "x-forwarded-host" := [host] ]})
  end.

(** No header of the request is recognized: none with a value is the
    [Authorization] header, is matched by the configured matcher, or is
    one of the timeout and forwarding headers. *)
Definition noRecognizedHeaders (mux : ServeMux) (req : Request) : Prop :=
  forall key vals,
    (key, vals) ∈ Header_ req -> vals <> [] ->
    let ckey := Textproto.CanonicalMIMEHeaderKey key in
    ckey <> "Authorization"
    /\ (incomingHeaderMatcher mux ckey).2 = false
    /\ ckey <> metadataGrpcTimeout /\ ckey <> xForwardedFor /\ ckey <> xForwardedHost.

(** ** Concrete settings and requests *)

(** A process with the no-op tracer, which accepts every carrier, no
    default timeout, and the clock at 1000. *)
Definition noopEnv : Env :=
  {| Extract := fun _ => Ok ""; DefaultContextTimeout := 0; now := 1000 |}.

(** The same process with a default timeout of ten seconds. *)
Definition tenSecondEnv : Env :=
  {| Extract := fun _ => Ok ""; DefaultContextTimeout := 10 * Second; now := 1000 |}.

(** The background context with the server span of a request for [/]
    that carries no trace. *)
Definition tracedBackground : Context :=
  ContextWithSpan Background (Opentracing.StartSpan "/" "").

(** A matcher that forwards every header under its own name. *)
Definition forwardAllMux : ServeMux :=
  {| incomingHeaderMatcher := fun key => (key, true); metadataAnnotators := [] |}.

(** The two annotators of the test suite. *)
Definition fooBar : Context -> Request -> MD := fun _ _ => {[ "foo" := ["bar"] ]}.
Definition bazQux : Context -> Request -> MD := fun _ _ => {[ "baz" := ["qux"] ]}.

(** A request without headers, host or remote address. *)
Definition bareRequest : Request :=
  {| Header_ := []; Host := ""; RemoteAddr := ""; URLPath := "/" |}.

(** A request with a host only. *)
Definition hostRequest : Request :=
  {| Header_ := [("Some-Irrelevant-Header", ["some value"])];
     Host := "example.com"; RemoteAddr := ""; URLPath := "/" |}.

(** A request without headers that arrives from a remote address. *)
Definition remoteRequest : Request :=
  {| Header_ := []; Host := "www.example.com";
     RemoteAddr := "192.0.2.200:12345"; URLPath := "/" |}.

(** The request of the test suite that forwards metadata. *)
Definition tokenRequest : Request :=
  {| Header_ := [("Some-Irrelevant-Header", ["some value"]);
                 ("Grpc-Metadata-Foobar", ["Value1"]);
                 ("Grpc-Metadata-Foo-Baz", ["Value2"; "Value3"]);
                 ("Authorization", ["Token 1234567890"])];
     Host := "www.example.com"; RemoteAddr := ""; URLPath := "/" |}.

(** Two headers whose names differ by letter case only, as entries of
    the header map. *)
Definition caseRequest : Request :=
  {| Header_ := [("Grpc-Metadata-Foo-BAZ", ["Value2"]);
                 ("Grpc-Metadata-foo-bAz", ["Value3"])];
     Host := "www.example.com"; RemoteAddr := ""; URLPath := "/" |}.

(** An authorization header next to a timeout header that does not
    decode. *)
Definition badTimeoutRequest : Request :=
  {| Header_ := [("Authorization", ["Token X"]); ("Grpc-Timeout", ["bogus"])];
     Host := "www.example.com"; RemoteAddr := ""; URLPath := "/" |}.

(** An authorization header next to a custom metadata header of the
    same name. *)
Definition twoTokensRequest : Request :=
  {| Header_ := [("Authorization", ["Token X"]);
                 ("Grpc-Metadata-Authorization", ["Token Y"])];
     Host := "www.example.com"; RemoteAddr := ""; URLPath := "/" |}.

(** The forwarded request of the test suite: the client in the header,
    the proxy as remote address. *)
Definition forwardedRequest : Request :=
  {| Header_ := [("X-Forwarded-For", ["192.0.2.100"])];
     Host := "bar.foo.example.com";
     RemoteAddr := "192.0.2.200:12345"; URLPath := "/" |}.

(** The same request with an empty forwarded-for value. *)
Definition emptyForwardedRequest : Request :=
  {| Header_ := [("X-Forwarded-For", [""])];
     Host := "bar.foo.example.com";
     RemoteAddr := "192.0.2.200:12345"; URLPath := "/" |}.

(** Requests with a timeout header: empty, and one second. *)
Definition emptyTimeoutRequest : Request :=
  {| Header_ := [("Grpc-Timeout", [""])]; Host := "example.com";
     RemoteAddr := ""; URLPath := "/" |}.

Definition oneSecondRequest : Request :=
  {| Header_ := [("Grpc-Timeout", ["1S"])]; Host := "example.com";
     RemoteAddr := ""; URLPath := "/" |}.

Definition concreteRequests : list Request :=
  [bareRequest; hostRequest; remoteRequest; tokenRequest; caseRequest;
   badTimeoutRequest; twoTokensRequest; forwardedRequest; emptyForwardedRequest;
   emptyTimeoutRequest; oneSecondRequest].

(** * Properties *)

(** ** Strings *)

Lemma byteZ_range c : 0 <= byteZ c < 256.
Proof.
  unfold byteZ. pose proof (N_ascii_bounded c). lia.
Qed.

Lemma isDigit_range c : isDigit c = true -> 0 <= byteZ c - 48 <= 9.
Proof.
  unfold isDigit, between. change (byteZ "0") with 48. change (byteZ "9") with 57.
  intros H. apply andb_true_iff in H as [H1 H2]. lia.
Qed.

(** ** [strconv.ParseInt] *)

Section ParseInt.
Import Strconv.

Lemma digitsValue_mono s : forall n,
  allDigits s = true -> 0 <= n -> n <= digitsValue s n.
Proof.
  induction s as [|c s IH]; intros n Hd Hn; simpl in *; [lia|].
  apply andb_true_iff in Hd as [Hc Hs].
  pose proof (isDigit_range c Hc).
  specialize (IH (n * 10 + (byteZ c - 48)) Hs). lia.
Qed.

Lemma parseUintLoop_ok s : forall n m,
  0 <= n <= maxUint64 ->
  parseUintLoop s n = Ok m <->
  allDigits s = true /\ m = digitsValue s n /\ m <= maxUint64.
Proof.
  unfold maxUint64.
  induction s as [|c s IH]; intros n m Hn; simpl.
  - split; [intros [= <-]; repeat split; lia | intros (_ & -> & _); reflexivity].
  - destruct (isDigit c) eqn:Hc; simpl; [|split; [intros [=] | intros [[=] _]]].
    pose proof (isDigit_range c Hc) as Hd.
    unfold maxUint64.
    change (byteZ "0") with 48.
    change ((2 ^ 64 - 1) / 10 + 1) with 1844674407370955162.
    destruct (Z.leb_spec 1844674407370955162 n) as [Hcut|Hcut].
    + split; [intros [=]|]. intros (Hs & -> & Hle).
      pose proof (digitsValue_mono s (n * 10 + (byteZ c - 48)) Hs). lia.
    + destruct (Z_lt_dec (n * 10 + (byteZ c - 48)) (2 ^ 64)) as [Hlt|Hge].
      * rewrite (Z.mod_small (n * 10 + (byteZ c - 48)) (2 ^ 64)) by lia.
        destruct (Z.ltb_spec (n * 10 + (byteZ c - 48)) (n * 10)); [lia|].
        destruct (Z.ltb_spec (2 ^ 64 - 1) (n * 10 + (byteZ c - 48))); [lia|].
        simpl. apply IH. lia.
      * assert (Hm : (n * 10 + (byteZ c - 48)) mod 2 ^ 64
                     = n * 10 + (byteZ c - 48) - 2 ^ 64).
        { symmetry. apply Z.mod_unique_pos with (q := 1); lia. }
        rewrite Hm.
        destruct (Z.ltb_spec (n * 10 + (byteZ c - 48) - 2 ^ 64) (n * 10)); [|lia].
        simpl. split; [intros [=]|]. intros (Hs & -> & Hle).
        pose proof (digitsValue_mono s (n * 10 + (byteZ c - 48)) Hs). lia.
Qed.

(** [ParseInt] accepts an optional sign followed by at least one
    digit, when the value fits in 64 signed bits. *)
Lemma ParseInt10_ok s n : ParseInt10 s = Ok n <-> isInt64Literal s n.
Proof.
  unfold isInt64Literal.
  assert (Hu : forall d m, ParseUint10 d = Ok m <->
            d <> "" /\ allDigits d = true /\ m = digitsValue d 0 /\ m <= maxUint64).
  { intros d m. unfold ParseUint10. destruct d as [|c d].
    - split; [intros [=] | intros [[] _]; reflexivity].
    - rewrite parseUintLoop_ok by (unfold maxUint64; lia).
      split; [intros; split; [discriminate | assumption] | intros [_ ?]; assumption]. }
  assert (Hpos : forall d, allDigits d = true -> 0 <= digitsValue d 0).
  { intros d Hd. apply digitsValue_mono; [assumption | lia]. }
  split.
  - destruct s as [|c rest]; [discriminate|]. unfold ParseInt10.
    destruct (Ascii.eqb_spec c "+") as [->|Hplus];
      [|destruct (Ascii.eqb_spec c "-") as [->|Hminus]].
    + destruct (ParseUint10 rest) as [un|] eqn:Hp; [|discriminate].
      apply Hu in Hp as (Hne & Hd & -> & Hmax). cbn [negb andb].
      destruct (Z.leb_spec (2 ^ 63) (digitsValue rest 0)); [discriminate|].
      intros [= <-]. exists "+", rest. specialize (Hpos rest Hd).
      repeat split; auto; lia.
    + destruct (ParseUint10 rest) as [un|] eqn:Hp; [|discriminate].
      apply Hu in Hp as (Hne & Hd & -> & Hmax). cbn [negb andb].
      destruct (Z.ltb_spec (2 ^ 63) (digitsValue rest 0)); [discriminate|].
      intros [= <-]. exists "-", rest. specialize (Hpos rest Hd).
      repeat split; auto; lia.
    + destruct (ParseUint10 (String c rest)) as [un|] eqn:Hp; [|discriminate].
      apply Hu in Hp as (Hne & Hd & -> & Hmax). cbn [negb andb].
      destruct (Z.leb_spec (2 ^ 63) (digitsValue (String c rest) 0)); [discriminate|].
      intros [= <-]. exists "", (String c rest). specialize (Hpos _ Hd).
      repeat split; auto; simpl in *; lia.
  - intros (sign & digits & -> & Hsign & Hne & Hd & -> & Hrange).
    pose proof (Hpos digits Hd) as H0.
    assert (Hp : ParseUint10 digits = Ok (digitsValue digits 0)).
    { apply Hu. repeat split; auto. unfold maxUint64.
      destruct (String.eqb sign "-"); lia. }
    destruct Hsign as [->|[->| ->]];
      cbn [String.eqb Ascii.eqb Bool.eqb] in Hrange |- *.
    + destruct digits as [|c rest]; [congruence|]. unfold ParseInt10.
      change ("" +:+ String c rest) with (String c rest).
      simpl in Hd. apply andb_true_iff in Hd as [Hc _].
      pose proof (isDigit_range c Hc) as Hr.
      destruct (Ascii.eqb_spec c "+") as [->|_]; [change (byteZ "+") with 43 in Hr; lia|].
      destruct (Ascii.eqb_spec c "-") as [->|_]; [change (byteZ "-") with 45 in Hr; lia|].
      rewrite Hp. cbn [negb andb].
      destruct (Z.leb_spec (2 ^ 63) (digitsValue (String c rest) 0)); [lia|reflexivity].
    + change ("+" +:+ digits) with (String "+" digits). unfold ParseInt10.
      cbn [Ascii.eqb Bool.eqb]. rewrite Hp. cbn [negb andb].
      destruct (Z.leb_spec (2 ^ 63) (digitsValue digits 0)); [lia|reflexivity].
    + change ("-" +:+ digits) with (String "-" digits). unfold ParseInt10.
      cbn [Ascii.eqb Bool.eqb]. rewrite Hp. cbn [negb andb].
      destruct (Z.ltb_spec (2 ^ 63) (digitsValue digits 0)); [lia|reflexivity].
Qed.

End ParseInt.

(** ** Timeout decoding *)

Lemma wrap64_small z : - 2 ^ 63 <= z < 2 ^ 63 -> wrap64 z = z.
Proof.
  intros H. unfold wrap64. rewrite Z.mod_small by lia. lia.
Qed.

Lemma timeoutUnitToDuration_unitOf u :
  timeoutUnitToDuration u
  = match unitOf u with Some d => (d, true) | None => (0, false) end.
Proof.
  unfold timeoutUnitToDuration, unitOf, unitTable. cbn [find fst snd].
  rewrite !(Ascii.eqb_sym u).
  repeat (destruct (Ascii.eqb _ u); [reflexivity|]). reflexivity.
Qed.

Lemma ParseInt10_err s :
  is_err (Strconv.ParseInt10 s) <-> ~ exists n, isInt64Literal s n.
Proof.
  destruct (Strconv.ParseInt10 s) as [n|e] eqn:Hp.
  - split; [intros []|]. intros H. apply H. exists n. apply ParseInt10_ok, Hp.
  - split; [|intros _; exact I]. intros _ [n Hn].
    apply ParseInt10_ok in Hn. congruence.
Qed.

(** C2: [timeoutDecode s] fails exactly when [s] has fewer than two
    bytes, or its last byte is not one of the six unit letters, or the
    bytes before it are not a base-10 literal of a 64-bit signed
    integer; otherwise it returns the [int64] product of the unit
    duration and that integer, which is their product whenever that
    fits in 64 bits.  ["17H"] gives 17 hours and ["100000007n"] gives
    100000007 nanoseconds. *)
Theorem timeoutDecode_spec (s : string) :
  let size := String.length s in
  let u := byte_at s (size - 1) in
  let digits := slice s 0 (size - 1) in
  let malformed :=
    (size < 2)%nat \/ unitOf u = None \/ ~ (exists t, isInt64Literal digits t) in
  (is_err (timeoutDecode s) <-> malformed)
  /\ (~ malformed ->
      exists d t, unitOf u = Some d /\ isInt64Literal digits t
                  /\ Strconv.ParseInt10 digits = Ok t
                  /\ timeoutDecode s = Ok (mul64 d t)
                  /\ (- 2 ^ 63 <= d * t < 2 ^ 63 -> mul64 d t = d * t))
  /\ timeoutDecode "17H" = Ok (17 * Hour)
  /\ timeoutDecode "100000007n" = Ok (100000007 * Nanosecond).
Proof.
  intros size u digits malformed. subst malformed.
  rewrite <- (ParseInt10_err digits).
  assert (Hcases :
    match timeoutDecode s with
    | Err _ => (size < 2)%nat \/ unitOf u = None \/ is_err (Strconv.ParseInt10 digits)
    | Ok r => (2 <= size)%nat /\ exists d t, unitOf u = Some d
                /\ Strconv.ParseInt10 digits = Ok t /\ r = mul64 d t
    end).
  { unfold timeoutDecode. fold size. destruct (Nat.ltb_spec size 2) as [Hlt|Hge].
    - left. exact Hlt.
    - fold u. rewrite timeoutUnitToDuration_unitOf.
      destruct (unitOf u) as [d|] eqn:Hu.
      + fold digits. destruct (Strconv.ParseInt10 digits) as [t|e] eqn:Hp.
        * split; [exact Hge|]. exists d, t. auto.
        * right. right. exact I.
      + right. left. reflexivity. }
  split; [|split; [|split; reflexivity]].
  - destruct (timeoutDecode s) as [r|e]; simpl.
    + destruct Hcases as (Hsz & d & t & Hu & Hp & _).
      split; [tauto|]. intros [H|[H|H]]; [lia|congruence|].
      rewrite Hp in H. exact H.
    + tauto.
  - intros Hwf. destruct (timeoutDecode s) as [r|e]; [|tauto].
    destruct Hcases as (_ & d & t & Hu & Hp & ->).
    exists d, t. split; [exact Hu|]. split; [apply ParseInt10_ok, Hp|].
    split; [exact Hp|]. split; [reflexivity|].
    intros Hfit. apply wrap64_small. exact Hfit.
Qed.

(** The theorem at ["23S"], which is well formed, and at ["23x"], whose
    unit is not one of the six. *)
Lemma timeoutDecode_witness :
  (exists d t, unitOf "S" = Some d /\ isInt64Literal "23" t
               /\ timeoutDecode "23S" = Ok (mul64 d t))
  /\ is_err (timeoutDecode "23x").
Proof.
  split.
  - destruct (timeoutDecode_spec "23S") as (_ & Hok & _).
    destruct Hok as (d & t & Hd & Hl & _ & Hr & _).
    + intros [H|[H|H]]; [vm_compute in H; lia | discriminate H |].
      apply H. exists 23. apply ParseInt10_ok. reflexivity.
    + exists d, t. auto.
  - apply (timeoutDecode_spec "23x"). right. left. reflexivity.
Defined.


(** ** Server metadata in a context *)

(** C10: reading back the [ServerMetadata] just attached to any context
    yields it with [ok = true]; a context along whose chain none was
    attached yields [ok = false]. *)
Theorem ServerMetadata_context_roundtrip :
  (forall ctx md,
      ServerMetadataFromContext (NewServerMetadataContext ctx md) = (md, true))
  /\ (forall ctx,
      hasServerMetadata ctx = false ->
      (ServerMetadataFromContext ctx).2 = false).
Proof.
  split.
  - intros ctx md. reflexivity.
  - unfold ServerMetadataFromContext.
    induction ctx as [|parent IH key val|parent IH|parent IH d]; simpl; intros H; auto.
    destruct (decide (key = serverMetadataKey)) as [->|Hk].
    + destruct val; simpl; auto; discriminate H.
    + destruct key; auto; congruence.
Qed.

(** The theorem at a context that carries a deadline and incoming
    metadata, before and after a [ServerMetadata] is attached. *)
Lemma ServerMetadata_context_witness :
  let ctx := valueCtx (timerCtx Background 5) mdIncomingKey (VMD ∅) in
  let md := {| HeaderMD := Some {[ "k" := ["v"] ]}; TrailerMD := None |} in
  (ServerMetadataFromContext ctx).2 = false
  /\ ServerMetadataFromContext (NewServerMetadataContext ctx md) = (md, true).
Proof.
  cbv zeta. destruct ServerMetadata_context_roundtrip as [Hset Hunset].
  split; [apply Hunset; reflexivity | apply Hset].
Defined.


(** ** Base64 *)

Section Base64Facts.
Import Base64.

Lemma bytes_of_bytes l : bytes (of_bytes l) = l.
Proof. induction l as [|c l IH]; simpl; congruence. Qed.

Lemma length_of_bytes l : String.length (of_bytes l) = length l.
Proof. induction l as [|c l IH]; simpl; congruence. Qed.

Lemma Zbyte_byteZ (a : ascii) (z : Z) : z mod 256 = byteZ a -> Zbyte z = a.
Proof.
  intros H. unfold Zbyte. rewrite H. unfold byteZ.
  rewrite N2Z.id. apply ascii_N_embedding.
Qed.

(** Joining bit fields that do not overlap is addition. *)
Lemma lor_add x b k :
  0 <= k -> x mod 2 ^ k = 0 -> 0 <= b < 2 ^ k -> Z.lor x b = x + b.
Proof.
  intros Hk Hx Hb.
  rewrite <- Z.lxor_lor; [symmetry; apply Z.add_nocarry_lxor|];
  (apply Z.bits_inj'; intros n Hn; rewrite Z.land_spec, Z.bits_0;
   destruct (Z.lt_ge_cases n k) as [Hlt|Hge];
   [ assert (Z.testbit x n = false) as ->; [|reflexivity];
     rewrite <- (Z.mod_pow2_bits_low x k n) by lia; rewrite Hx; apply Z.bits_0
   | assert (Z.testbit b n = false) as ->; [|apply Bool.andb_false_r];
     rewrite <- (Z.mod_small b (2 ^ k)) by lia; apply Z.mod_pow2_bits_high; lia ]).
Qed.

Ltac pow2 :=
  repeat match goal with
  | |- context [2 ^ ?k] =>
      let v := eval vm_compute in (2 ^ k) in change (2 ^ k) with v
  end.

Ltac zdiv := pow2; Z.div_mod_to_equations; lia.

Ltac to_div :=
  change 63 with (Z.ones 6); rewrite ?Z.land_ones by lia;
  rewrite ?Z.shiftr_div_pow2 by lia; rewrite ?Z.shiftl_mul_pow2 by lia; pow2.

(** The 24 bits of three bytes, and the same bits rebuilt from their
    four sextets. *)
Lemma pack3 a b c :
  0 <= a < 256 -> 0 <= b < 256 -> 0 <= c < 256 ->
  Z.lor (Z.lor (Z.shiftl a 16) (Z.shiftl b 8)) c = a * 65536 + b * 256 + c.
Proof.
  intros Ha Hb Hc. rewrite !Z.shiftl_mul_pow2 by lia.
  rewrite (lor_add (a * 2 ^ 16) (b * 2 ^ 8) 16) by zdiv.
  rewrite (lor_add _ c 8) by zdiv. pow2. lia.
Qed.

Lemma pack4 s0 s1 s2 s3 :
  0 <= s0 < 64 -> 0 <= s1 < 64 -> 0 <= s2 < 64 -> 0 <= s3 < 64 ->
  Z.lor (Z.lor (Z.lor (Z.shiftl s0 18) (Z.shiftl s1 12)) (Z.shiftl s2 6)) s3
  = s0 * 262144 + s1 * 4096 + s2 * 64 + s3.
Proof.
  intros H0 H1 H2 H3. rewrite !Z.shiftl_mul_pow2 by lia.
  rewrite (lor_add (s0 * 2 ^ 18) (s1 * 2 ^ 12) 18) by zdiv.
  rewrite (lor_add _ (s2 * 2 ^ 6) 12) by zdiv.
  rewrite (lor_add _ s3 6) by zdiv. pow2. lia.
Qed.

Lemma sextet_range v k : 0 <= k -> 0 <= Z.land (Z.shiftr v k) 63 < 64.
Proof.
  intros Hk. change 63 with (Z.ones 6). rewrite Z.land_ones by lia.
  apply Z.mod_pos_bound. lia.
Qed.

Lemma decodeMap_encodeByte s : 0 <= s < 64 -> decodeMap (encodeByte s) = s.
Proof.
  intros Hs.
  assert (Hall : forallb (fun n => decodeMap (encodeByte (Z.of_nat n)) =? Z.of_nat n)
                         (seq 0 64) = true) by (vm_compute; reflexivity).
  rewrite forallb_forall in Hall.
  specialize (Hall (Z.to_nat s)). rewrite Z2Nat.id in Hall by lia.
  apply Z.eqb_eq, Hall, in_seq. lia.
Qed.

(** One step of the decoder on an alphabet character. *)
Lemma decodeLoop_sextet enc s rest dbuf :
  0 <= s < 64 ->
  decodeLoop enc (encodeByte s :: rest) dbuf
  = if (length (dbuf ++ [s]) =? 4)%nat then
      match decodeLoop enc rest [] with
      | Ok tl => Ok (quantumBytes (dbuf ++ [s]) ++ tl)
      | Err e => Err e
      end
    else decodeLoop enc rest (dbuf ++ [s]).
Proof.
  intros Hs. cbn [decodeLoop]. rewrite (decodeMap_encodeByte s Hs).
  destruct (Z.eqb_spec s 255) as [?|_]; [lia|]. reflexivity.
Qed.

Lemma quantumBytes_full a b c :
  let val := Z.lor (Z.lor (Z.shiftl (byteZ a) 16) (Z.shiftl (byteZ b) 8)) (byteZ c) in
  quantumBytes [Z.land (Z.shiftr val 18) 63; Z.land (Z.shiftr val 12) 63;
                Z.land (Z.shiftr val 6) 63; Z.land val 63]
  = [a; b; c].
Proof.
  intros val. pose proof (byteZ_range a). pose proof (byteZ_range b).
  pose proof (byteZ_range c).
  unfold quantumBytes. cbn [nth length Nat.sub take].
  rewrite pack4; [|apply sextet_range; lia ..
                  |pose proof (sextet_range val 0); rewrite Z.shiftr_0_r in *; lia].
  subst val. rewrite pack3 by lia.
  repeat f_equal; apply Zbyte_byteZ; to_div; zdiv.
Qed.

Lemma quantumBytes_two a b :
  let val := Z.lor (Z.shiftl (byteZ a) 16) (Z.shiftl (byteZ b) 8) in
  quantumBytes [Z.land (Z.shiftr val 18) 63; Z.land (Z.shiftr val 12) 63;
                Z.land (Z.shiftr val 6) 63]
  = [a; b].
Proof.
  intros val. pose proof (byteZ_range a). pose proof (byteZ_range b).
  unfold quantumBytes. cbn [nth length Nat.sub take].
  rewrite pack4; [|apply sextet_range; lia ..|lia].
  subst val. rewrite !Z.shiftl_mul_pow2 by lia.
  rewrite (lor_add (byteZ a * 2 ^ 16) (byteZ b * 2 ^ 8) 16) by zdiv.
  repeat f_equal; apply Zbyte_byteZ; to_div; zdiv.
Qed.

Lemma quantumBytes_one a :
  let val := Z.shiftl (byteZ a) 16 in
  quantumBytes [Z.land (Z.shiftr val 18) 63; Z.land (Z.shiftr val 12) 63] = [a].
Proof.
  intros val. pose proof (byteZ_range a).
  unfold quantumBytes. cbn [nth length Nat.sub take].
  rewrite pack4; [|apply sextet_range; lia ..|lia|lia].
  subst val. rewrite !Z.shiftl_mul_pow2 by lia.
  repeat f_equal; apply Zbyte_byteZ; to_div; zdiv.
Qed.

Lemma sextet0_range v : 0 <= Z.land v 63 < 64.
Proof. pose proof (sextet_range v 0) as H. rewrite Z.shiftr_0_r in H. lia. Qed.

(** Induction over a byte sequence three bytes at a time, as [Encode]
    consumes it. *)
Lemma list_ind3 {A} (P : list A -> Prop) :
  P [] -> (forall a, P [a]) -> (forall a b, P [a; b]) ->
  (forall a b c rest, P rest -> P (a :: b :: c :: rest)) ->
  forall l, P l.
Proof.
  intros H0 H1 H2 H3.
  assert (H : forall l, P l /\ (forall a, P (a :: l)) /\ (forall a b, P (a :: b :: l))).
  { induction l as [|x l (IHa & IHb & IHc)]; [auto|].
    repeat split; auto. }
  intros l. apply H.
Qed.

Ltac decode_sextets :=
  repeat (rewrite decodeLoop_sextet by (apply sextet_range || apply sextet0_range; lia);
          cbn [length app Nat.eqb]).

Lemma decodeLoop_quantum enc a b c rest :
  decodeLoop enc (Encode enc (a :: b :: c :: rest)) []
  = match decodeLoop enc (Encode enc rest) [] with
    | Ok tl => Ok (a :: b :: c :: tl)
    | Err e => Err e
    end.
Proof.
  cbn [Encode app]. decode_sextets.
  pose proof (quantumBytes_full a b c) as Hq. cbv zeta in Hq. rewrite Hq.
  reflexivity.
Qed.

(** The end of the input after two or three sextets. *)
Lemma decodeLoop_pad2 d0 d1 :
  decodeLoop StdEncoding ["="%char; "="%char] [d0; d1] = Ok (quantumBytes [d0; d1]).
Proof. reflexivity. Qed.

Lemma decodeLoop_pad1 d0 d1 d2 :
  decodeLoop StdEncoding ["="%char] [d0; d1; d2] = Ok (quantumBytes [d0; d1; d2]).
Proof. reflexivity. Qed.

Lemma decodeLoop_raw_end d0 d1 ds :
  decodeLoop RawStdEncoding [] (d0 :: d1 :: ds) = Ok (quantumBytes (d0 :: d1 :: ds)).
Proof. reflexivity. Qed.

(** Decoding inverts encoding, with the padded and with the raw
    encoding. *)
Lemma decode_encode_std l :
  decodeLoop StdEncoding (Encode StdEncoding l) [] = Ok l.
Proof.
  induction l as [|a|a b|a b c rest IH] using list_ind3.
  - reflexivity.
  - cbn [Encode app padChar StdEncoding]. decode_sextets.
    pose proof (quantumBytes_one a) as Hq. cbv zeta in Hq.
    rewrite decodeLoop_pad2, Hq. reflexivity.
  - cbn [Encode app padChar StdEncoding]. decode_sextets.
    pose proof (quantumBytes_two a b) as Hq. cbv zeta in Hq.
    rewrite decodeLoop_pad1, Hq. reflexivity.
  - rewrite decodeLoop_quantum, IH. reflexivity.
Qed.

Lemma decode_encode_raw l :
  decodeLoop RawStdEncoding (Encode RawStdEncoding l) [] = Ok l.
Proof.
  induction l as [|a|a b|a b c rest IH] using list_ind3.
  - reflexivity.
  - cbn [Encode app padChar RawStdEncoding]. decode_sextets.
    pose proof (quantumBytes_one a) as Hq. cbv zeta in Hq.
    rewrite decodeLoop_raw_end, Hq. reflexivity.
  - cbn [Encode app padChar RawStdEncoding]. decode_sextets.
    pose proof (quantumBytes_two a b) as Hq. cbv zeta in Hq.
    rewrite decodeLoop_raw_end, Hq. reflexivity.
  - rewrite decodeLoop_quantum, IH. reflexivity.
Qed.

(** The padded encoding has a length that is a multiple of four; the
    raw encoding has such a length only when it needs no padding, and
    is then the padded encoding. *)
Lemma length_encode_std l : (length (Encode StdEncoding l) mod 4 = 0)%nat.
Proof.
  induction l as [|a|a b|a b c rest IH] using list_ind3; try reflexivity.
  cbn [Encode app length].
  change (S (S (S (S (length (Encode StdEncoding rest))))))
    with (4 + length (Encode StdEncoding rest))%nat.
  rewrite <- Nat.Div0.add_mod_idemp_l. exact IH.
Qed.

Lemma encode_raw_unpadded l :
  (length (Encode RawStdEncoding l) mod 4 = 0)%nat ->
  Encode RawStdEncoding l = Encode StdEncoding l.
Proof.
  induction l as [|a|a b|a b c rest IH] using list_ind3; try reflexivity;
    try (intros H; discriminate H).
  cbn [Encode app length].
  change (S (S (S (S (length (Encode RawStdEncoding rest))))))
    with (4 + length (Encode RawStdEncoding rest))%nat.
  rewrite <- Nat.Div0.add_mod_idemp_l. intros H.
  rewrite (IH H). reflexivity.
Qed.

End Base64Facts.

(** [decodeBinHeader] returns the bytes behind either encoding. *)
Lemma decodeBinHeader_padded (b : list ascii) :
  decodeBinHeader (Base64.EncodeToString Base64.StdEncoding b) = Ok b.
Proof.
  unfold decodeBinHeader, Base64.EncodeToString, Base64.DecodeString.
  rewrite length_of_bytes, length_encode_std, bytes_of_bytes.
  apply decode_encode_std.
Qed.

Lemma decodeBinHeader_raw (b : list ascii) :
  decodeBinHeader (Base64.EncodeToString Base64.RawStdEncoding b) = Ok b.
Proof.
  unfold decodeBinHeader, Base64.EncodeToString, Base64.DecodeString.
  rewrite length_of_bytes, bytes_of_bytes.
  destruct (Nat.eqb_spec (length (Base64.Encode Base64.RawStdEncoding b) mod 4) 0) as [H|H].
  - rewrite (encode_raw_unpadded b H). apply decode_encode_std.
  - apply decode_encode_raw.
Qed.

(** ** Canonical header keys *)

Section Canonical.
Import Textproto.

Lemma case_byte_idem (u : bool) (c : ascii) :
  let f := fun c => if u then upperByte c else lowerByte c in
  f (f c) = f c.
Proof.
  destruct u, c as [[] [] [] [] [] [] [] []]; reflexivity.
Qed.

Lemma case_byte_valid (u : bool) (c : ascii) :
  validHeaderFieldByte c = true ->
  validHeaderFieldByte (if u then upperByte c else lowerByte c) = true.
Proof.
  destruct u, c as [[] [] [] [] [] [] [] []]; intros H; solve [reflexivity | discriminate H].
Qed.

Lemma canonicalize_valid s : forall u,
  allValid s = true -> allValid (canonicalize u s) = true.
Proof.
  induction s as [|c s IH]; intros u H; [reflexivity|].
  simpl in *. apply andb_true_iff in H as [Hc Hs].
  rewrite (case_byte_valid u c Hc). simpl. apply IH, Hs.
Qed.

Lemma canonicalize_idem s : forall u,
  canonicalize u (canonicalize u s) = canonicalize u s.
Proof.
  induction s as [|c s IH]; intros u; [reflexivity|].
  simpl. pose proof (case_byte_idem u c) as Hc. cbv zeta in Hc.
  rewrite Hc. f_equal. apply IH.
Qed.

(** Canonicalizing twice is canonicalizing once: the inner loop of the
    header walk may reassign the key at each value. *)
Lemma CanonicalMIMEHeaderKey_idem s :
  CanonicalMIMEHeaderKey (CanonicalMIMEHeaderKey s) = CanonicalMIMEHeaderKey s.
Proof.
  unfold CanonicalMIMEHeaderKey. destruct (allValid s) eqn:H.
  - rewrite canonicalize_valid by exact H. apply canonicalize_idem.
  - rewrite H. reflexivity.
Qed.

Lemma case_byte_lower (u : bool) (c : ascii) :
  (if u then upperByte (lowerByte c) else lowerByte (lowerByte c))
  = (if u then upperByte c else lowerByte c).
Proof.
  destruct u, c as [[] [] [] [] [] [] [] []]; reflexivity.
Qed.

Lemma valid_lower (c : ascii) :
  validHeaderFieldByte (lowerByte c) = validHeaderFieldByte c.
Proof.
  destruct c as [[] [] [] [] [] [] [] []]; reflexivity.
Qed.

Lemma canonicalize_lower s : forall u,
  canonicalize u (ToLower s) = canonicalize u s.
Proof.
  induction s as [|c s IH]; intros u; [reflexivity|].
  cbn [ToLower mapBytes canonicalize]. rewrite case_byte_lower. f_equal. apply IH.
Qed.

Lemma allValid_lower s : allValid (ToLower s) = allValid s.
Proof.
  induction s as [|c s IH]; [reflexivity|].
  cbn [ToLower mapBytes allValid]. rewrite valid_lower. f_equal. exact IH.
Qed.

(** Two header names made of token characters that differ by letter
    case only have the same canonical form. *)
Lemma CanonicalMIMEHeaderKey_case K1 K2 :
  ToLower K1 = ToLower K2 -> allValid K1 = true ->
  CanonicalMIMEHeaderKey K1 = CanonicalMIMEHeaderKey K2.
Proof.
  intros Hl Hv. unfold CanonicalMIMEHeaderKey.
  assert (Hv2 : allValid K2 = true).
  { rewrite <- allValid_lower, <- Hl, allValid_lower. exact Hv. }
  rewrite Hv, Hv2, <- (canonicalize_lower K1), <- (canonicalize_lower K2), Hl.
  reflexivity.
Qed.

End Canonical.

(** ** The header walk *)

Lemma headerValue_spec mux key pairs val :
  headerValue mux (key, pairs) val
  = let ckey := Textproto.CanonicalMIMEHeaderKey key in
    if undecodable mux ckey val then
      Err (Errorf InvalidArgument (InvalidBinaryHeader ckey Base64.CorruptInput))
    else Ok (ckey, pairs ++ emitted mux ckey val).
Proof.
  unfold headerValue, undecodable, emitted, storedValue. cbv zeta.
  set (ckey := Textproto.CanonicalMIMEHeaderKey key).
  destruct (incomingHeaderMatcher mux ckey) as [h [|]]; cbn [snd andb].
  - destruct (HasSuffix ckey metadataHeaderBinarySuffix); cbn [andb].
    + destruct (decodeBinHeader val) as [b|[]];
        destruct (String.eqb ckey "Authorization"); cbn [app];
        rewrite <- ?app_assoc; reflexivity.
    + destruct (String.eqb ckey "Authorization"); cbn [app];
        rewrite <- ?app_assoc; reflexivity.
  - destruct (String.eqb ckey "Authorization"); cbn [app];
      rewrite ?app_nil_r; reflexivity.
Qed.

Lemma headerValues_spec mux vals : forall key pairs,
  match headerValues mux vals (key, pairs) with
  | Err st =>
      existsb (undecodable mux (Textproto.CanonicalMIMEHeaderKey key)) vals = true
      /\ st = Errorf InvalidArgument
                (InvalidBinaryHeader (Textproto.CanonicalMIMEHeaderKey key) Base64.CorruptInput)
  | Ok st =>
      existsb (undecodable mux (Textproto.CanonicalMIMEHeaderKey key)) vals = false
      /\ st.2 = pairs ++ flat_map (emitted mux (Textproto.CanonicalMIMEHeaderKey key)) vals
  end.
Proof.
  induction vals as [|val vals IH]; intros key pairs.
  - simpl. rewrite app_nil_r. auto.
  - cbn [headerValues]. rewrite headerValue_spec. cbv zeta.
    cbn [existsb flat_map].
    destruct (undecodable mux (Textproto.CanonicalMIMEHeaderKey key) val).
    + cbn. auto.
    + cbn [mbind result_bind orb].
      specialize (IH (Textproto.CanonicalMIMEHeaderKey key)
                     (pairs ++ emitted mux (Textproto.CanonicalMIMEHeaderKey key) val)).
      rewrite CanonicalMIMEHeaderKey_idem in IH.
      destruct (headerValues mux vals _) as [st|st].
      * destruct IH as [-> ->]. rewrite <- app_assoc. auto.
      * exact IH.
Qed.

Lemma headerWalk_spec mux h : forall pairs,
  match headerWalk mux h pairs with
  | Err st =>
      walkFails mux h = true
      /\ exists key, st = Errorf InvalidArgument (InvalidBinaryHeader key Base64.CorruptInput)
  | Ok ps => walkFails mux h = false /\ ps = pairs ++ walkPairs mux h
  end.
Proof.
  induction h as [|[key vals] rest IH]; intros pairs.
  - simpl. rewrite app_nil_r. auto.
  - cbn [headerWalk walkFails walkPairs existsb flat_map fst snd].
    pose proof (headerValues_spec mux vals key pairs) as Hv.
    destruct (headerValues mux vals (key, pairs)) as [st|st].
    + destruct Hv as [Hno Hst]. cbn [mbind result_bind]. rewrite Hno, Hst.
      cbn [orb]. specialize (IH (pairs ++ flat_map (emitted mux (Textproto.CanonicalMIMEHeaderKey key)) vals)).
      destruct (headerWalk mux rest _) as [ps|st'].
      * destruct IH as [Hf ->]. split; [exact Hf|]. rewrite <- app_assoc. reflexivity.
      * exact IH.
    + destruct Hv as [Hyes ->]. cbn [mbind result_bind]. rewrite Hyes. eauto.
Qed.

(** The walk fails exactly on an undecodable value of a matched binary
    header. *)
Lemma walkFails_iff mux h :
  walkFails mux h = true <->
  exists key vals val,
    (key, vals) ∈ h /\ val ∈ vals
    /\ (incomingHeaderMatcher mux (Textproto.CanonicalMIMEHeaderKey key)).2 = true
    /\ HasSuffix (Textproto.CanonicalMIMEHeaderKey key) metadataHeaderBinarySuffix = true
    /\ is_err (decodeBinHeader val).
Proof.
  unfold walkFails. rewrite existsb_exists. split.
  - intros ([key vals] & Hin & Hex). apply existsb_exists in Hex as (val & Hval & Hu).
    exists key, vals, val. cbn [fst snd] in *.
    unfold undecodable in Hu. apply andb_true_iff in Hu as [Hu Hd].
    apply andb_true_iff in Hu as [Hm Hs].
    rewrite !list_elem_of_In. repeat split; auto.
    destruct (decodeBinHeader val); [discriminate|exact I].
  - intros (key & vals & val & Hin & Hval & Hm & Hs & Hd).
    exists (key, vals). rewrite <- list_elem_of_In. split; [exact Hin|].
    apply existsb_exists. exists val. rewrite <- list_elem_of_In. split; [exact Hval|].
    cbn [fst]. unfold undecodable. rewrite Hm, Hs.
    destruct (decodeBinHeader val); [destruct Hd|reflexivity].
Qed.

(** ** The shape of [annotateContext] *)

Lemma forwardedHost_app req pairs :
  forwardedHost req pairs = pairs ++ forwardedHost req [].
Proof.
  unfold forwardedHost.
  repeat match goal with |- context [if ?b then _ else _] => destruct b end;
    rewrite ?app_nil_r; reflexivity.
Qed.

Lemma forwardedFor_app req pairs :
  forwardedFor req pairs = pairs ++ forwardedFor req [].
Proof.
  unfold forwardedFor.
  repeat match goal with
         | |- context [if ?b then _ else _] => destruct b
         | |- context [match ?r with Ok _ => _ | Err _ => _ end] => destruct r as [[? ?]|?]
         end;
    rewrite ?app_nil_r; reflexivity.
Qed.

Lemma forwarded_app req pairs :
  forwardedFor req (forwardedHost req pairs) = pairs ++ forwardedPairs req.
Proof.
  unfold forwardedPairs.
  rewrite forwardedFor_app, forwardedHost_app, (forwardedFor_app req (forwardedHost req [])).
  rewrite app_assoc. reflexivity.
Qed.

(** [annotateContext] in terms of the pair list of the walk: the three
    failures, the early return on an empty list, and the bag. *)
Lemma annotateContext_cases env ctx mux req :
  annotateContext env ctx mux req
  = match Extract env (Header_ req) with
    | Err err =>
        (None, None, Some (Errorf InvalidArgument (InvalidRequestParameters err)))
    | Ok wireContext =>
        match resolveTimeout env req with
        | Err e => (None, None, Some e)
        | Ok timeout =>
            match headerWalk mux (Header_ req) [] with
            | Err e => (None, None, Some e)
            | Ok _ =>
                let pairs := walkPairs mux (Header_ req) ++ forwardedPairs req in
                let ctx' := derivedContext env ctx req wireContext timeout in
                match pairs with
                | [] => (Some ctx', None, None)
                | _ :: _ =>
                    (Some ctx',
                     Some (runAnnotators (metadataAnnotators mux) ctx' req (Pairs pairs)),
                     None)
                end
            end
        end
    end.
Proof.
  unfold annotateContext.
  destruct (Extract env (Header_ req)) as [w|err]; [|reflexivity].
  destruct (resolveTimeout env req) as [timeout|e]; [|reflexivity].
  pose proof (headerWalk_spec mux (Header_ req) []) as Hw.
  destruct (headerWalk mux (Header_ req) []) as [ps|e]; [|reflexivity].
  destruct Hw as [_ ->]. cbn [app]. rewrite forwarded_app. cbv zeta.
  fold (derivedContext env ctx req w timeout).
  destruct (walkPairs mux (Header_ req) ++ forwardedPairs req); reflexivity.
Qed.

(** ** Metadata bags *)

Lemma even_list_ind (P : list string -> Prop) :
  P [] ->
  (forall a b l, evenLength l -> P l -> P (a :: b :: l)) ->
  forall l, evenLength l -> P l.
Proof.
  intros H0 H2.
  assert (H : forall l, (evenLength l -> P l)
                        /\ (forall a, evenLength (a :: l) -> P (a :: l))).
  { induction l as [|x l [IHa IHb]].
    - split; [auto|]. intros a Ha. discriminate Ha.
    - split; [exact (IHb x)|]. intros a Ha. apply H2; [exact Ha|].
      apply IHa. exact Ha. }
  intros l. apply H.
Qed.

Lemma evenLength_app l1 l2 : evenLength l1 -> evenLength l2 -> evenLength (l1 ++ l2).
Proof.
  intros H1 H2. revert l1 H1. apply even_list_ind; [exact H2|].
  intros a b l _ IH. exact IH.
Qed.

Lemma valuesAt_app k l1 l2 :
  evenLength l1 -> valuesAt k (l1 ++ l2) = valuesAt k l1 ++ valuesAt k l2.
Proof.
  revert l1. apply even_list_ind; [reflexivity|].
  intros a b l _ IH. cbn [app valuesAt]. rewrite IH, app_assoc. reflexivity.
Qed.

Lemma evenLength_emitted mux ckey val : evenLength (emitted mux ckey val).
Proof.
  unfold emitted.
  destruct (String.eqb ckey "Authorization"), (incomingHeaderMatcher mux ckey) as [h [|]];
    reflexivity.
Qed.

Lemma evenLength_flat_map {A} (f : A -> list string) l :
  (forall x, evenLength (f x)) -> evenLength (flat_map f l).
Proof.
  intros Hf. induction l as [|x l IH]; [reflexivity|].
  cbn [flat_map]. apply evenLength_app; auto.
Qed.

Lemma evenLength_walkPairs mux h : evenLength (walkPairs mux h).
Proof.
  apply evenLength_flat_map. intros e. apply evenLength_flat_map.
  intros val. apply evenLength_emitted.
Qed.

Lemma evenLength_forwardedHost req : evenLength (forwardedHost req []).
Proof.
  unfold forwardedHost.
  repeat match goal with |- context [if ?b then _ else _] => destruct b end;
    reflexivity.
Qed.

Lemma evenLength_forwardedPairs req : evenLength (forwardedPairs req).
Proof.
  unfold forwardedPairs, forwardedFor, forwardedHost.
  repeat match goal with
         | |- context [if ?b then _ else _] => destruct b
         | |- context [match ?r with Ok _ => _ | Err _ => _ end] => destruct r as [[? ?]|?]
         end; reflexivity.
Qed.

Lemma valuesOf_appendValue md key s k :
  valuesOf (appendValue md key s) k
  = valuesOf md k ++ (if String.eqb key k then [s] else []).
Proof.
  unfold appendValue, valuesOf. destruct (String.eqb_spec key k) as [->|Hne].
  - rewrite lookup_insert_eq. reflexivity.
  - rewrite lookup_insert_ne by exact Hne. rewrite app_nil_r. reflexivity.
Qed.

Lemma valuesOf_pairsLoop k kv :
  evenLength kv -> forall md,
  valuesOf (pairsLoop kv md) k = valuesOf md k ++ valuesAt k kv.
Proof.
  revert kv. apply (even_list_ind (fun kv => forall md, _)).
  - intros md. simpl. rewrite app_nil_r. reflexivity.
  - intros a b l _ IH md. cbn [pairsLoop valuesAt].
    rewrite IH, valuesOf_appendValue, <- app_assoc. reflexivity.
Qed.

(** The bag built by [Pairs] keeps, under each key, the values of that
    key in the order of the list. *)
Lemma valuesOf_Pairs k kv : evenLength kv -> valuesOf (Pairs kv) k = valuesAt k kv.
Proof.
  intros H. unfold Pairs. rewrite valuesOf_pairsLoop by exact H. reflexivity.
Qed.

Lemma valuesOf_joinInto out md k :
  valuesOf (joinInto out md) k = valuesOf out k ++ valuesOf md k.
Proof.
  unfold valuesOf, joinInto. rewrite lookup_union_with.
  destruct (out !! k), (md !! k); simpl; rewrite ?app_nil_r; reflexivity.
Qed.

Lemma joinInto_empty md : joinInto ∅ md = md.
Proof.
  apply map_eq. intros k. unfold joinInto. rewrite lookup_union_with, lookup_empty.
  destruct (md !! k); reflexivity.
Qed.

Lemma Join_one md : Join [md] = md.
Proof. unfold Join. simpl. apply joinInto_empty. Qed.

Lemma Join_two md1 md2 : Join [md1; md2] = joinInto md1 md2.
Proof. unfold Join. simpl. rewrite joinInto_empty. reflexivity. Qed.

(** Each annotator's values land once, after those already in the bag,
    in registration order. *)
Lemma valuesOf_runAnnotators annotators ctx req k : forall md,
  valuesOf (runAnnotators annotators ctx req md) k
  = valuesOf md k ++ concat (map (fun mda => valuesOf (mda ctx req) k) annotators).
Proof.
  unfold runAnnotators.
  induction annotators as [|mda rest IH]; intros md.
  - simpl. rewrite app_nil_r. reflexivity.
  - cbn [fold_left map concat]. rewrite IH, Join_two, valuesOf_joinInto, <- app_assoc.
    reflexivity.
Qed.

Lemma headerValuesFor_app mux k h1 h2 :
  headerValuesFor mux k (h1 ++ h2) = headerValuesFor mux k h1 ++ headerValuesFor mux k h2.
Proof.
  unfold headerValuesFor, walkPairs. rewrite flat_map_app.
  apply valuesAt_app. apply (evenLength_walkPairs mux h1).
Qed.

Lemma valuesAt_flat_emitted mux ckey k vals :
  valuesAt k (flat_map (emitted mux ckey) vals)
  = flat_map (fun val => valuesAt k (emitted mux ckey val)) vals.
Proof.
  induction vals as [|val vals IH]; [reflexivity|].
  cbn [flat_map]. rewrite valuesAt_app by apply evenLength_emitted.
  rewrite IH. reflexivity.
Qed.

Lemma headerValuesFor_cons mux k key vals h :
  headerValuesFor mux k ((key, vals) :: h)
  = flat_map (fun val => valuesAt k (emitted mux (Textproto.CanonicalMIMEHeaderKey key) val)) vals
    ++ headerValuesFor mux k h.
Proof.
  unfold headerValuesFor, walkPairs. cbn [flat_map fst snd].
  rewrite valuesAt_app by (apply evenLength_flat_map; intros; apply evenLength_emitted).
  rewrite valuesAt_flat_emitted. reflexivity.
Qed.

(** The bag of a successful annotation, key by key: the values from
    the headers in iteration order, then the forwarded entries, then the
    annotators in registration order. *)
Lemma bag_values env ctx mux req ctx' md k :
  annotateContext env ctx mux req = (Some ctx', Some md, None) ->
  valuesOf md k
  = headerValuesFor mux k (Header_ req)
    ++ valuesAt k (forwardedPairs req)
    ++ annotatorValues mux ctx' req k.
Proof.
  rewrite annotateContext_cases.
  destruct (Extract env (Header_ req)) as [w|err]; [|discriminate].
  destruct (resolveTimeout env req) as [timeout|e]; [|discriminate].
  destruct (headerWalk mux (Header_ req) []) as [ps|e]; [|discriminate].
  cbv zeta.
  destruct (walkPairs mux (Header_ req) ++ forwardedPairs req) as [|x l] eqn:Hp;
    [discriminate|].
  intros [= <- <-]. rewrite <- Hp.
  rewrite valuesOf_runAnnotators, valuesOf_Pairs
    by (apply evenLength_app; [apply evenLength_walkPairs | apply evenLength_forwardedPairs]).
  rewrite valuesAt_app by apply evenLength_walkPairs.
  unfold headerValuesFor, annotatorValues. rewrite <- app_assoc. reflexivity.
Qed.

(** ** Outcomes of [annotateContext] *)

Lemma resolveTimeout_spec env req :
  match resolveTimeout env req with
  | Err st => timeoutMalformed req /\ code st = InvalidArgument
  | Ok d => ~ timeoutMalformed req /\ d = resolvedTimeout env req
  end.
Proof.
  unfold resolveTimeout, timeoutMalformed, resolvedTimeout. cbv zeta.
  destruct (String.eqb_spec (Get (Header_ req) metadataGrpcTimeout) "") as [->|Hne];
    cbn [negb].
  - split; [intros [H _]; congruence | reflexivity].
  - destruct (timeoutDecode (Get (Header_ req) metadataGrpcTimeout)) as [d|e].
    + split; [intros [_ []] | reflexivity].
    + split; [split; [exact Hne | exact I] | reflexivity].
Qed.

(** Every call ends in one of three ways: an error of class
    [InvalidArgument] with neither context nor bag, the derived context
    without a bag when the pair list is empty, or the derived context
    with the complete bag. *)
Lemma annotateContext_outcome env ctx mux req :
  (annotationFails env mux req
   /\ exists st, code st = InvalidArgument
                 /\ annotateContext env ctx mux req = (None, None, Some st))
  \/ (~ annotationFails env mux req
      /\ exists w, Extract env (Header_ req) = Ok w
         /\ let ctx' := derivedContext env ctx req w (resolvedTimeout env req) in
            annotateContext env ctx mux req
            = match allPairs mux req with
              | [] => (Some ctx', None, None)
              | _ :: _ => (Some ctx', Some (fullBag mux ctx' req), None)
              end).
Proof.
  rewrite annotateContext_cases. unfold annotationFails.
  destruct (Extract env (Header_ req)) as [w|err].
  2:{ left. split; [left; exact I|]. eexists. split; [|reflexivity]. reflexivity. }
  pose proof (resolveTimeout_spec env req) as Ht.
  destruct (resolveTimeout env req) as [timeout|e].
  2:{ destruct Ht as [Hm Hc]. left. split; [right; left; exact Hm|]. eauto. }
  destruct Ht as [Hnm ->].
  pose proof (headerWalk_spec mux (Header_ req) []) as Hw.
  destruct (headerWalk mux (Header_ req) []) as [ps|e].
  2:{ destruct Hw as [Hf [key ->]]. left. split; [right; right; exact Hf|].
      eexists. split; [|reflexivity]. reflexivity. }
  destruct Hw as [Hf _]. right. split.
  - intros [H|[H|H]]; [destruct H | contradiction | congruence].
  - exists w. split; [reflexivity|]. reflexivity.
Qed.

Lemma annotate_failure env ctx mux req :
  annotationFails env mux req ->
  exists st, code st = InvalidArgument
    /\ AnnotateContext env ctx mux req = (None, Some st)
    /\ AnnotateIncomingContext env ctx mux req = (None, Some st).
Proof.
  intros Hf.
  destruct (annotateContext_outcome env ctx mux req) as [(_ & st & Hc & Ha)|[Hn _]];
    [|contradiction].
  exists st. unfold AnnotateContext, AnnotateIncomingContext. rewrite Ha. auto.
Qed.

Lemma annotate_success env ctx mux req :
  ~ annotationFails env mux req ->
  exists w, Extract env (Header_ req) = Ok w
    /\ let ctx' := derivedContext env ctx req w (resolvedTimeout env req) in
       match allPairs mux req with
       | [] =>
           annotateContext env ctx mux req = (Some ctx', None, None)
           /\ AnnotateContext env ctx mux req = (Some ctx', None)
           /\ AnnotateIncomingContext env ctx mux req = (Some ctx', None)
       | _ :: _ =>
           let md := fullBag mux ctx' req in
           annotateContext env ctx mux req = (Some ctx', Some md, None)
           /\ AnnotateContext env ctx mux req = (Some (NewOutgoingContext ctx' md), None)
           /\ AnnotateIncomingContext env ctx mux req = (Some (NewIncomingContext ctx' md), None)
       end.
Proof.
  intros Hn.
  destruct (annotateContext_outcome env ctx mux req) as [[Hf _]|(_ & w & Hw & Ha)];
    [contradiction|].
  exists w. split; [exact Hw|]. cbv zeta in *.
  unfold AnnotateContext, AnnotateIncomingContext. rewrite Ha.
  destruct (allPairs mux req); auto.
Qed.

Lemma FromOutgoingContext_new ctx md :
  FromOutgoingContext (NewOutgoingContext ctx md) = Some md.
Proof. unfold FromOutgoingContext. simpl. rewrite Join_one. reflexivity. Qed.

Lemma FromIncomingContext_new ctx md :
  FromIncomingContext (NewIncomingContext ctx md) = Some md.
Proof. reflexivity. Qed.

(** ** Binary headers *)

(** C6: [decodeBinHeader] decodes with the padded standard encoding
    when the length of its input is a multiple of four and with the raw
    standard encoding otherwise; applied to the padded or to the raw
    encoding of any byte sequence it returns that sequence; and a value
    of a matched binary header that does not decode makes both
    annotation operations fail with [InvalidArgument]. *)
Theorem decodeBinHeader_spec :
  (forall v,
      decodeBinHeader v
      = Base64.DecodeString
          (if (String.length v mod 4 =? 0)%nat then Base64.StdEncoding
           else Base64.RawStdEncoding) v)
  /\ (forall b, decodeBinHeader (Base64.EncodeToString Base64.StdEncoding b) = Ok b)
  /\ (forall b, decodeBinHeader (Base64.EncodeToString Base64.RawStdEncoding b) = Ok b)
  /\ (forall env ctx mux req key vals val,
        (key, vals) ∈ Header_ req -> val ∈ vals ->
        (incomingHeaderMatcher mux (Textproto.CanonicalMIMEHeaderKey key)).2 = true ->
        HasSuffix (Textproto.CanonicalMIMEHeaderKey key) metadataHeaderBinarySuffix = true ->
        is_err (decodeBinHeader val) ->
        exists st, code st = InvalidArgument
          /\ AnnotateContext env ctx mux req = (None, Some st)
          /\ AnnotateIncomingContext env ctx mux req = (None, Some st)).
Proof.
  split; [|split; [|split]].
  - intros v. unfold decodeBinHeader. destruct (_ =? _)%nat; reflexivity.
  - exact decodeBinHeader_padded.
  - exact decodeBinHeader_raw.
  - intros env ctx mux req key vals val Hin Hval Hm Hs Hd.
    apply annotate_failure. right. right. apply walkFails_iff.
    exists key, vals, val. auto.
Qed.

(** The theorem at the bytes of the test suite and at a binary header
    whose value is not base64. *)
Lemma decodeBinHeader_witness :
  let binData := bytes (String "000" "test-binary-data") in
  let req := {| Header_ := [("Grpc-Metadata-Test-Bin", ["!!!"])];
                Host := "www.example.com"; RemoteAddr := ""; URLPath := "/" |} in
  decodeBinHeader (Base64.EncodeToString Base64.StdEncoding binData) = Ok binData
  /\ decodeBinHeader (Base64.EncodeToString Base64.RawStdEncoding binData) = Ok binData
  /\ exists st, code st = InvalidArgument
       /\ AnnotateContext noopEnv Background NewServeMux req = (None, Some st)
       /\ AnnotateIncomingContext noopEnv Background NewServeMux req = (None, Some st).
Proof.
  cbv zeta. destruct decodeBinHeader_spec as (_ & Hstd & Hraw & Hfail).
  split; [apply Hstd|]. split; [apply Hraw|].
  apply (Hfail _ _ _ _ "Grpc-Metadata-Test-Bin" ["!!!"] "!!!");
    [apply list_elem_of_here | apply list_elem_of_here
    | vm_compute; reflexivity | vm_compute; reflexivity | exact I].
Defined.


(** ** Failure and success of the annotation *)

(** C4 as stated fails on a request whose pair list is
    empty: the call on the bare request is neither an error nor a
    context with a bag attached, in either direction. *)
Lemma annotation_without_bag :
  ~ ((exists c md,
        AnnotateContext noopEnv Background NewServeMux bareRequest = (Some c, None)
        /\ FromOutgoingContext c = Some md)
     \/ (exists st,
        AnnotateContext noopEnv Background NewServeMux bareRequest = (None, Some st)))
  /\ ~ ((exists c md,
        AnnotateIncomingContext noopEnv Background NewServeMux bareRequest = (Some c, None)
        /\ FromIncomingContext c = Some md)
     \/ (exists st,
        AnnotateIncomingContext noopEnv Background NewServeMux bareRequest
        = (None, Some st))).
Proof.
  split; intros [(c & md & Ha & Hmd)|(st & Ha)];
    solve [ vm_compute in Ha; injection Ha as <-; vm_compute in Hmd; discriminate Hmd
          | vm_compute in Ha; discriminate Ha ].
Qed.

(** C4 (amended): when annotation fails -- the tracer rejects the
    carrier, the timeout header is malformed, or a matched binary header
    does not decode -- both operations return an [InvalidArgument] error
    and no context.  Otherwise both return the derived context and no
    error: without any bag when the pair list is empty, and with the
    complete bag (all pairs, then all annotators) attached in their
    direction when it is not. *)
Theorem annotation_all_or_nothing env ctx mux req :
  (annotationFails env mux req ->
   exists st, code st = InvalidArgument
     /\ AnnotateContext env ctx mux req = (None, Some st)
     /\ AnnotateIncomingContext env ctx mux req = (None, Some st))
  /\ (~ annotationFails env mux req ->
      exists w, Extract env (Header_ req) = Ok w
        /\ let ctx' := derivedContext env ctx req w (resolvedTimeout env req) in
           (allPairs mux req = [] ->
            AnnotateContext env ctx mux req = (Some ctx', None)
            /\ AnnotateIncomingContext env ctx mux req = (Some ctx', None))
           /\ (allPairs mux req <> [] ->
               let md := fullBag mux ctx' req in
               AnnotateContext env ctx mux req = (Some (NewOutgoingContext ctx' md), None)
               /\ FromOutgoingContext (NewOutgoingContext ctx' md) = Some md
               /\ AnnotateIncomingContext env ctx mux req
                  = (Some (NewIncomingContext ctx' md), None)
               /\ FromIncomingContext (NewIncomingContext ctx' md) = Some md)).
Proof.
  split.
  - apply annotate_failure.
  - intros Hn. destruct (annotate_success env ctx mux req Hn) as (w & Hw & Hs).
    exists w. split; [exact Hw|]. cbv zeta in *.
    destruct (allPairs mux req) as [|x l].
    + split; [intros _; tauto | intros H; congruence].
    + split; [intros H; discriminate H|]. intros _.
      rewrite FromOutgoingContext_new, FromIncomingContext_new. tauto.
Qed.

(** The theorem at a request that fails, at one without pairs and at the
    request of the test suite. *)
Lemma annotation_all_or_nothing_witness :
  (exists st, code st = InvalidArgument
     /\ AnnotateContext noopEnv Background NewServeMux badTimeoutRequest = (None, Some st))
  /\ (exists c, AnnotateContext noopEnv Background NewServeMux bareRequest = (Some c, None))
  /\ (exists c md,
        AnnotateContext noopEnv Background NewServeMux tokenRequest = (Some c, None)
        /\ FromOutgoingContext c = Some md
        /\ md = fullBag NewServeMux
                  (derivedContext noopEnv Background tokenRequest "" 0) tokenRequest).
Proof.
  assert (Hn : forall req, Get (Header_ req) metadataGrpcTimeout = "" ->
                 walkFails NewServeMux (Header_ req) = false ->
                 ~ annotationFails noopEnv NewServeMux req).
  { intros req Ht Hw [H|[[H _]|H]]; [exact H | contradiction | congruence]. }
  split; [|split].
  - destruct (annotation_all_or_nothing noopEnv Background NewServeMux badTimeoutRequest)
      as [Hfail _].
    destruct Hfail as (st & Hc & Ha & _); [right; left; split; [discriminate | exact I]|].
    exists st. auto.
  - destruct (annotation_all_or_nothing noopEnv Background NewServeMux bareRequest)
      as [_ Hok].
    destruct Hok as (w & _ & Hempty & _); [apply Hn; reflexivity|].
    destruct Hempty as [Ha _]; [reflexivity|]. eexists. exact Ha.
  - destruct (annotation_all_or_nothing noopEnv Background NewServeMux tokenRequest)
      as [_ Hok].
    destruct Hok as (w & Hw & _ & Hfull); [apply Hn; reflexivity|].
    injection Hw as <-.
    destruct Hfull as (Ha & Hmd & _); [vm_compute; discriminate|].
    eexists _, _. split; [exact Ha|]. split; [exact Hmd|]. reflexivity.
Defined.


(** ** The deadline *)

Lemma Deadline_derivedContext env ctx req w timeout :
  Deadline (derivedContext env ctx req w timeout)
  = if timeout =? 0 then Deadline ctx
    else match Deadline ctx with
         | Some cur =>
             if cur <? now env + timeout then Some cur else Some (now env + timeout)
         | None => Some (now env + timeout)
         end.
Proof.
  unfold derivedContext, WithTimeout, WithDeadline, ContextWithSpan, WithValue.
  destruct (timeout =? 0); cbn [negb Deadline]; [reflexivity|].
  destruct (Deadline ctx) as [cur|] eqn:Hd; [|reflexivity].
  destruct (cur <? now env + timeout); cbn [Deadline]; [exact Hd | reflexivity].
Qed.

(** C5 as stated fails on a timeout header that is
    present with an empty value: the value does not decode, and yet the
    call does not fail.  It also fails on an incoming context that
    already has a deadline earlier than [now + d]: the context returned
    for a header of one second keeps the earlier deadline. *)
Lemma empty_timeout_header_is_ignored :
  (("Grpc-Timeout", [""]) ∈ Header_ emptyTimeoutRequest
   /\ is_err (timeoutDecode "")
   /\ ~ (exists st, code st = InvalidArgument
           /\ AnnotateContext noopEnv Background NewServeMux emptyTimeoutRequest
              = (None, Some st)))
  /\ (timeoutDecode (Get (Header_ oneSecondRequest) metadataGrpcTimeout) = Ok Second
      /\ ~ (exists c,
              AnnotateContext noopEnv (timerCtx Background 1500) NewServeMux oneSecondRequest
              = (Some c, None)
              /\ Deadline c = Some (now noopEnv + Second))).
Proof.
  split; [split; [|split]|split].
  - apply list_elem_of_here.
  - exact I.
  - intros (st & _ & Ha). vm_compute in Ha. discriminate Ha.
  - reflexivity.
  - intros (c & Ha & Hd). vm_compute in Ha. injection Ha as <-.
    vm_compute in Hd. discriminate Hd.
Qed.

(** C5 (amended): let [tm] be the first value stored under
    [Grpc-Timeout].  When [tm] is not empty and does not decode, both
    operations fail with [InvalidArgument].  Whenever either operation
    returns a context, the timeout in force is the decoded [tm] when [tm]
    is not empty and the default when [tm] is empty (header absent or
    with an empty first value); when that timeout is zero the context
    has the deadline of the incoming context -- none if that had none --
    and when it is not zero the deadline is [now + timeout], unless the
    incoming context already had an earlier one, which stays. *)
Theorem timeout_resolution env ctx mux req :
  let tm := Get (Header_ req) metadataGrpcTimeout in
  let resolved := resolvedTimeout env req in
  (tm <> "" -> is_err (timeoutDecode tm) ->
   exists st, code st = InvalidArgument
     /\ AnnotateContext env ctx mux req = (None, Some st)
     /\ AnnotateIncomingContext env ctx mux req = (None, Some st))
  /\ (forall c,
        AnnotateContext env ctx mux req = (Some c, None)
        \/ AnnotateIncomingContext env ctx mux req = (Some c, None) ->
        (tm <> "" -> timeoutDecode tm = Ok resolved)
        /\ (tm = "" -> resolved = DefaultContextTimeout env)
        /\ Deadline c
           = (if resolved =? 0 then Deadline ctx
              else match Deadline ctx with
                   | Some cur =>
                       if cur <? now env + resolved then Some cur
                       else Some (now env + resolved)
                   | None => Some (now env + resolved)
                   end)
        /\ (Deadline ctx = None ->
            Deadline c = if resolved =? 0 then None else Some (now env + resolved))).
Proof.
  intros tm resolved. split.
  - intros Hne Herr. apply annotate_failure. right. left. split; assumption.
  - intros c Hc.
    assert (Hn : ~ annotationFails env mux req).
    { intros Hf. destruct (annotate_failure env ctx mux req Hf) as (st & _ & H1 & H2).
      destruct Hc as [Hc|Hc]; congruence. }
    assert (Hd : Deadline c
                 = Deadline (derivedContext env ctx req
                               (match Extract env (Header_ req) with Ok w => w | Err _ => "" end)
                               resolved)).
    { destruct (annotate_success env ctx mux req Hn) as (w & Hw & Hs).
      rewrite Hw. cbv zeta in Hs. fold resolved in Hs.
      destruct (allPairs mux req); destruct Hs as (_ & H1 & H2);
        destruct Hc as [Hc|Hc]; rewrite Hc in *;
        match goal with H : (Some _, None) = (Some _, None) |- _ =>
          injection H as -> end; reflexivity. }
    rewrite Hd, Deadline_derivedContext.
    assert (Htm : ~ timeoutMalformed req) by (intros H; apply Hn; right; left; exact H).
    unfold timeoutMalformed in Htm. cbv zeta in Htm. fold tm in Htm.
    repeat split.
    + intros Hne. subst resolved. unfold resolvedTimeout. cbv zeta. fold tm.
      destruct (String.eqb_spec tm "") as [?|_]; [contradiction|].
      destruct (timeoutDecode tm) as [d|e]; [reflexivity|].
      exfalso. apply Htm. split; [exact Hne | exact I].
    + intros Heq. subst resolved. unfold resolvedTimeout. cbv zeta. fold tm.
      rewrite Heq. reflexivity.
    + intros ->. reflexivity.
Qed.

(** The theorem at a header of one second, at a malformed header, and
    at the default of ten seconds. *)
Lemma timeout_resolution_witness :
  (exists c,
     AnnotateContext noopEnv Background NewServeMux oneSecondRequest = (Some c, None)
     /\ Deadline c = Some (now noopEnv + Second))
  /\ (exists st, code st = InvalidArgument
        /\ AnnotateContext noopEnv Background NewServeMux badTimeoutRequest = (None, Some st))
  /\ (exists c,
        AnnotateIncomingContext tenSecondEnv Background NewServeMux hostRequest
        = (Some c, None)
        /\ Deadline c = Some (now tenSecondEnv + 10 * Second)).
Proof.
  split; [|split].
  - destruct (timeout_resolution noopEnv Background NewServeMux oneSecondRequest)
      as [_ Hok].
    eexists. split; [vm_compute; reflexivity|].
    match goal with |- Deadline ?c = _ =>
      destruct (Hok c) as (_ & _ & _ & Hd); [left; vm_compute; reflexivity|]
    end.
    rewrite Hd by reflexivity. reflexivity.
  - destruct (timeout_resolution noopEnv Background NewServeMux badTimeoutRequest)
      as [Hfail _].
    destruct Hfail as (st & Hc & Ha & _); [discriminate | exact I|].
    exists st. auto.
  - destruct (timeout_resolution tenSecondEnv Background NewServeMux hostRequest)
      as [_ Hok].
    eexists. split; [vm_compute; reflexivity|].
    match goal with |- Deadline ?c = _ =>
      destruct (Hok c) as (_ & _ & _ & Hd); [right; vm_compute; reflexivity|]
    end.
    rewrite Hd by reflexivity. reflexivity.
Defined.


(** ** Annotators *)

(** C7 as stated fails on a request whose pair list is
    empty: the registered annotator contributes to no bag.  The same
    on a request whose annotation fails. *)
Lemma annotator_skipped_on_bare_request :
  ~ (exists c md,
       AnnotateContext noopEnv Background (WithMetadata fooBar NewServeMux) bareRequest
       = (Some c, None)
       /\ FromOutgoingContext c = Some md
       /\ valuesOf md "foo" = ["bar"])
  /\ ~ (exists c md,
       AnnotateContext noopEnv Background (WithMetadata fooBar NewServeMux)
         badTimeoutRequest
       = (Some c, None)
       /\ FromOutgoingContext c = Some md
       /\ valuesOf md "foo" = ["bar"]).
Proof.
  split.
  - intros (c & md & Ha & Hmd & _).
    vm_compute in Ha. injection Ha as <-. vm_compute in Hmd. discriminate Hmd.
  - intros (c & md & Ha & _). vm_compute in Ha. discriminate Ha.
Qed.

(** C7 (amended): on every request whose annotation does not fail and
    whose pair list is not empty, the bag is the bag of the pairs joined
    with the result of each registered annotator, taken once and in
    registration order, every annotator being applied to the same
    derived context and the same request; under every key the values
    from the pair list come first and the annotators' values follow in
    registration order.  When the pair list is empty no bag is returned
    and no annotator result is used. *)
Theorem annotators_merged_in_registration_order env ctx mux req :
  ~ annotationFails env mux req ->
  exists ctx',
    (allPairs mux req = [] ->
     annotateContext env ctx mux req = (Some ctx', None, None))
    /\ (allPairs mux req <> [] ->
        exists md,
          annotateContext env ctx mux req = (Some ctx', Some md, None)
          /\ AnnotateContext env ctx mux req = (Some (NewOutgoingContext ctx' md), None)
          /\ AnnotateIncomingContext env ctx mux req
             = (Some (NewIncomingContext ctx' md), None)
          /\ md = fold_left (fun acc mda => joinInto acc (mda ctx' req))
                            (metadataAnnotators mux) (Pairs (allPairs mux req))
          /\ forall k,
               valuesOf md k
               = valuesAt k (allPairs mux req)
                 ++ concat (map (fun mda => valuesOf (mda ctx' req) k)
                                (metadataAnnotators mux))).
Proof.
  intros Hn. destruct (annotate_success env ctx mux req Hn) as (w & Hw & Hs).
  cbv zeta in Hs.
  exists (derivedContext env ctx req w (resolvedTimeout env req)). split.
  - intros He. rewrite He in Hs. apply Hs.
  - intros Hne. destruct (allPairs mux req) as [|x l] eqn:Hp; [congruence|].
    destruct Hs as (H1 & H2 & H3).
    exists (fullBag mux (derivedContext env ctx req w (resolvedTimeout env req)) req).
    split; [exact H1|]. split; [exact H2|]. split; [exact H3|]. split.
    + unfold fullBag, runAnnotators. rewrite Hp.
      generalize (Pairs (x :: l)).
      induction (metadataAnnotators mux) as [|mda rest IH]; intros acc;
        [reflexivity|].
      cbn [fold_left]. rewrite Join_two. apply IH.
    + intros k. unfold fullBag. rewrite valuesOf_runAnnotators, valuesOf_Pairs.
      * rewrite Hp. reflexivity.
      * apply evenLength_app; [apply evenLength_walkPairs | apply evenLength_forwardedPairs].
Qed.

(** The theorem at the two annotators of the test suite. *)
Lemma annotators_merged_witness :
  let mux := WithMetadata bazQux (WithMetadata fooBar NewServeMux) in
  ~ annotationFails noopEnv mux hostRequest
  /\ exists ctx' md,
      annotateContext noopEnv Background mux hostRequest = (Some ctx', Some md, None)
      /\ valuesOf md "x-forwarded-host" = ["example.com"]
      /\ valuesOf md "foo" = ["bar"]
      /\ valuesOf md "baz" = ["qux"].
Proof.
  cbv zeta.
  assert (Hn : ~ annotationFails noopEnv (WithMetadata bazQux (WithMetadata fooBar NewServeMux))
                 hostRequest).
  { intros [H|[[H _]|H]];
      [exact H | apply H; vm_compute; reflexivity | vm_compute in H; discriminate H]. }
  split; [exact Hn|].
  destruct (annotators_merged_in_registration_order noopEnv Background _ hostRequest Hn)
    as (ctx' & _ & Hbag).
  destruct Hbag as (md & Ha & _ & _ & _ & Hv); [vm_compute; discriminate|].
  exists ctx', md. split; [exact Ha|].
  rewrite !Hv. repeat split; vm_compute; reflexivity.
Defined.


(** ** Header lookup *)

(** In a header map, [Get] returns the first value of the entry stored
    under the canonical form of the name. *)
Lemma Get_of_entry (h : Header) (name v : string) (vs : list string) :
  wf_header h ->
  (Textproto.CanonicalMIMEHeaderKey name, v :: vs) ∈ h ->
  Get h name = v.
Proof.
  unfold wf_header, Get. set (key := Textproto.CanonicalMIMEHeaderKey name).
  induction h as [|[k vals] rest IH]; intros Hwf Hin; [inversion Hin|].
  cbn [fmap list_fmap fst] in Hwf. apply NoDup_cons in Hwf as [Hk Hwf].
  cbn [lookup]. apply elem_of_cons in Hin as [Heq|Hin].
  - injection Heq as <- <-. rewrite String.eqb_refl. reflexivity.
  - destruct (String.eqb_spec k key) as [->|_]; [|apply IH; assumption].
    exfalso. apply Hk. apply (list_elem_of_fmap_2 fst) in Hin. exact Hin.
Qed.

(** ** Requests without recognized headers *)

Lemma Get_absent (h : Header) (name : string) :
  (forall key vals, (key, vals) ∈ h -> vals <> [] ->
                    key <> Textproto.CanonicalMIMEHeaderKey name) ->
  Get h name = "".
Proof.
  unfold Get. induction h as [|[key vals] rest IH]; intros Hno; [reflexivity|].
  cbn [lookup]. destruct (String.eqb_spec key (Textproto.CanonicalMIMEHeaderKey name)) as [Heq|Hne].
  - destruct vals as [|v vals]; [reflexivity|].
    exfalso. apply (Hno key (v :: vals)); [apply list_elem_of_here | discriminate | exact Heq].
  - apply IH. intros key' vals' Hin. apply Hno. apply list_elem_of_further, Hin.
Qed.

Lemma walk_unrecognized mux (h : Header) :
  (forall key vals, (key, vals) ∈ h -> vals <> [] ->
     Textproto.CanonicalMIMEHeaderKey key <> "Authorization"
     /\ (incomingHeaderMatcher mux (Textproto.CanonicalMIMEHeaderKey key)).2 = false) ->
  walkPairs mux h = [] /\ walkFails mux h = false.
Proof.
  induction h as [|[key vals] rest IH]; intros Hno; [split; reflexivity|].
  destruct IH as [IHp IHf].
  { intros key' vals' Hin. apply Hno. apply list_elem_of_further, Hin. }
  unfold walkPairs, walkFails in *. cbn [flat_map existsb fst snd].
  rewrite IHp, IHf, app_nil_r, orb_false_r.
  destruct vals as [|v vals]; [split; reflexivity|].
  destruct (Hno key (v :: vals)) as [Ha Hm]; [apply list_elem_of_here | discriminate |].
  assert (He : forall val, emitted mux (Textproto.CanonicalMIMEHeaderKey key) val = []).
  { intros val. unfold emitted.
    destruct (String.eqb_spec (Textproto.CanonicalMIMEHeaderKey key) "Authorization");
      [contradiction|].
    destruct (incomingHeaderMatcher mux _) as [h' [|]]; [discriminate Hm | reflexivity]. }
  assert (Hu : forall val, undecodable mux (Textproto.CanonicalMIMEHeaderKey key) val = false).
  { intros val. unfold undecodable. rewrite Hm. reflexivity. }
  split.
  - generalize (v :: vals). intros l. induction l as [|a l IHl]; [reflexivity|].
    cbn [flat_map]. rewrite He, IHl. reflexivity.
  - generalize (v :: vals). intros l. induction l as [|a l IHl]; [reflexivity|].
    cbn [existsb]. rewrite Hu, IHl. reflexivity.
Qed.

Lemma Pairs_one k v : Pairs [k; v] = {[ ToLower k := [v] ]}.
Proof.
  unfold Pairs, pairsLoop, appendValue, valuesOf.
  rewrite lookup_empty. cbn [default app]. apply insert_empty.
Qed.

Lemma Pairs_two k1 v1 k2 v2 :
  ToLower k1 <> ToLower k2 ->
  Pairs [k1; v1; k2; v2] = <[ ToLower k2 := [v2] ]> {[ ToLower k1 := [v1] ]}.
Proof.
  intros Hne. unfold Pairs, pairsLoop, appendValue, valuesOf.
  rewrite lookup_empty. cbn [default app]. rewrite insert_empty.
  rewrite lookup_singleton_ne by exact Hne. reflexivity.
Qed.

(** C9 as stated fails on a request without headers
    whose remote address splits: the bag is not the forwarded-host entry
    alone.  Nor is it on a request without recognized headers when an
    annotator is registered. *)
Lemma forwarded_for_added_without_headers :
  ~ (exists c md,
       AnnotateContext noopEnv Background NewServeMux remoteRequest = (Some c, None)
       /\ FromOutgoingContext c = Some md
       /\ md = {[ "x-forwarded-host" := ["www.example.com"] ]})
  /\ ~ (exists c md,
       AnnotateContext noopEnv Background (WithMetadata fooBar NewServeMux) hostRequest
       = (Some c, None)
       /\ FromOutgoingContext c = Some md
       /\ md = {[ "x-forwarded-host" := ["example.com"] ]}).
Proof.
  split; intros (c & md & Ha & Hmd & Heq).
  - assert (Hk : AnnotateContext noopEnv Background NewServeMux remoteRequest
                 = (Some (NewOutgoingContext tracedBackground
                            (Pairs ["x-forwarded-host"; "www.example.com";
                                    "x-forwarded-for"; "192.0.2.200"])), None))
      by (vm_compute; reflexivity).
    rewrite Hk in Ha. injection Ha as <-.
    rewrite FromOutgoingContext_new in Hmd. injection Hmd as <-.
    apply (f_equal (fun m : MD => m !! "x-forwarded-for")) in Heq.
    vm_compute in Heq. discriminate Heq.
  - assert (Hk : AnnotateContext noopEnv Background (WithMetadata fooBar NewServeMux)
                   hostRequest
                 = (Some (NewOutgoingContext tracedBackground
                            (joinInto (Pairs ["x-forwarded-host"; "example.com"])
                                      {[ "foo" := ["bar"] ]})), None))
      by (vm_compute; reflexivity).
    rewrite Hk in Ha. injection Ha as <-.
    rewrite FromOutgoingContext_new in Hmd. injection Hmd as <-.
    apply (f_equal (fun m : MD => m !! "foo")) in Heq.
    vm_compute in Heq. discriminate Heq.
Qed.

(** C9 (amended): on a request without recognized headers, with no
    annotator registered and a carrier the tracer accepts, annotation
    succeeds and the bag holds the forwarded-host entry when the request
    has a host, the forwarded-for entry with the client address when the
    remote address splits as host:port, and nothing else; there is no
    bag at all when it has neither. *)
Theorem bag_without_recognized_headers env ctx mux req w :
  Extract env (Header_ req) = Ok w ->
  metadataAnnotators mux = [] ->
  noRecognizedHeaders mux req ->
  annotateContext env ctx mux req
  = (Some (derivedContext env ctx req w (DefaultContextTimeout env)),
     forwardedBag (Host req) (clientIP req),
     None).
Proof.
  intros Hw Hann Hno.
  assert (Hcanon : forall name,
            name ∈ [metadataGrpcTimeout; xForwardedFor; xForwardedHost] ->
            Get (Header_ req) name = "").
  { intros name Hname. apply Get_absent. intros key vals Hin Hvals Heq.
    destruct (Hno key vals Hin Hvals) as (_ & _ & Hk).
    cbv zeta in Hk. rewrite Heq, CanonicalMIMEHeaderKey_idem in Hk.
    rewrite !elem_of_cons in Hname.
    destruct Hname as [->|[->|[->|Hn]]]; [| | |inversion Hn];
      vm_compute in Hk; tauto. }
  destruct (walk_unrecognized mux (Header_ req)) as [Hp Hf].
  { intros key vals Hin Hvals. destruct (Hno key vals Hin Hvals) as (Ha & Hm & _).
    split; assumption. }
  rewrite annotateContext_cases, Hw.
  unfold resolveTimeout. rewrite Hcanon by (rewrite !elem_of_cons; auto). cbn [String.eqb negb].
  pose proof (headerWalk_spec mux (Header_ req) []) as Hwalk.
  destruct (headerWalk mux (Header_ req) []) as [ps|e].
  2:{ destruct Hwalk as [Ht _]. congruence. }
  cbv zeta. rewrite Hp, Hann. cbn [app runAnnotators fold_left].
  unfold forwardedPairs, forwardedFor, forwardedHost, clientIP, forwardedBag.
  rewrite !Hcanon by (rewrite !elem_of_cons; auto). cbn [String.eqb negb].
  destruct (String.eqb (Host req) ""), (String.eqb (RemoteAddr req) ""); cbn [negb app].
  - reflexivity.
  - destruct (Net.SplitHostPort (RemoteAddr req)) as [[ip port]|e]; [|reflexivity].
    rewrite Pairs_one. reflexivity.
  - rewrite Pairs_one. reflexivity.
  - destruct (Net.SplitHostPort (RemoteAddr req)) as [[ip port]|e].
    + cbn [app]. rewrite Pairs_two by (vm_compute; discriminate). reflexivity.
    + rewrite Pairs_one. reflexivity.
Qed.

(** The theorem at a request with one irrelevant header and a host. *)
Lemma bag_without_recognized_headers_witness :
  noRecognizedHeaders NewServeMux hostRequest
  /\ annotateContext noopEnv Background NewServeMux hostRequest
     = (Some (derivedContext noopEnv Background hostRequest "" 0),
        Some {[ "x-forwarded-host" := ["example.com"] ]},
        None).
Proof.
  assert (Hno : noRecognizedHeaders NewServeMux hostRequest).
  { intros key vals Hin _. cbn [Header_ hostRequest] in Hin.
    apply list_elem_of_singleton in Hin. injection Hin as -> ->.
    vm_compute. repeat split; discriminate. }
  split; [exact Hno|].
  exact (bag_without_recognized_headers noopEnv Background NewServeMux hostRequest ""
           eq_refl eq_refl Hno).
Defined.


(** ** The forwarded chain *)

Lemma forwardedPairs_split req ip port :
  Net.SplitHostPort (RemoteAddr req) = Ok (ip, port) ->
  forwardedPairs req
  = forwardedHost req []
    ++ [ToLower xForwardedFor;
        if String.eqb (Get (Header_ req) xForwardedFor) "" then ip
        else Get (Header_ req) xForwardedFor +:+ ", " +:+ ip].
Proof.
  intros Hs. unfold forwardedPairs, forwardedFor. rewrite Hs.
  destruct (String.eqb_spec (RemoteAddr req) "") as [He|_];
    [rewrite He in Hs; discriminate Hs|].
  cbn [negb]. destruct (String.eqb (Get (Header_ req) xForwardedFor) ""); reflexivity.
Qed.

Lemma forwardedFor_unsplit req :
  RemoteAddr req = "" \/ is_err (Net.SplitHostPort (RemoteAddr req)) ->
  forall pairs, forwardedFor req pairs = pairs.
Proof.
  intros H pairs. unfold forwardedFor.
  destruct (String.eqb_spec (RemoteAddr req) "") as [?|Hne]; [reflexivity|].
  destruct H as [H|H]; [contradiction|].
  destruct (Net.SplitHostPort (RemoteAddr req)) as [[? ?]|e]; [destruct H | reflexivity].
Qed.

Lemma valuesAt_forwardedHost req : valuesAt "x-forwarded-for" (forwardedHost req []) = [].
Proof.
  unfold forwardedHost.
  repeat match goal with |- context [if ?b then _ else _] => destruct b end;
    reflexivity.
Qed.

(** The error of [annotateContext] depends on the headers only. *)
Lemma annotateContext_error_headers env ctx mux req1 req2 :
  Header_ req1 = Header_ req2 ->
  (annotateContext env ctx mux req1).2 = (annotateContext env ctx mux req2).2.
Proof.
  intros Hh. rewrite !annotateContext_cases. unfold resolveTimeout. rewrite Hh.
  destruct (Extract env (Header_ req2)) as [w|err]; [|reflexivity].
  destruct (String.eqb (Get (Header_ req2) metadataGrpcTimeout) ""); cbn [negb].
  - destruct (headerWalk mux (Header_ req2) []) as [ps|e]; [|reflexivity].
    cbv zeta.
    destruct (walkPairs mux (Header_ req2) ++ forwardedPairs req1),
             (walkPairs mux (Header_ req2) ++ forwardedPairs req2); reflexivity.
  - destruct (timeoutDecode (Get (Header_ req2) metadataGrpcTimeout)); [|reflexivity].
    destruct (headerWalk mux (Header_ req2) []) as [ps|e]; [|reflexivity].
    cbv zeta.
    destruct (walkPairs mux (Header_ req2) ++ forwardedPairs req1),
             (walkPairs mux (Header_ req2) ++ forwardedPairs req2); reflexivity.
Qed.

(** C3 as stated fails on a forwarded-for header that is
    present with an empty value: the bag holds the bare client address
    and not the empty value followed by a comma and the address.  It
    also fails when the configured matcher forwards the header itself:
    the bag then holds the header value before the chain. *)
Lemma empty_forwarded_for_is_ignored :
  (("X-Forwarded-For", [""]) ∈ Header_ emptyForwardedRequest
   /\ Net.SplitHostPort (RemoteAddr emptyForwardedRequest) = Ok ("192.0.2.200", "12345")
   /\ ~ (exists c md,
           AnnotateContext noopEnv Background NewServeMux emptyForwardedRequest
           = (Some c, None)
           /\ FromOutgoingContext c = Some md
           /\ valuesOf md "x-forwarded-for" = ["" +:+ ", " +:+ "192.0.2.200"]))
  /\ (("X-Forwarded-For", ["192.0.2.100"]) ∈ Header_ forwardedRequest
      /\ ~ (exists c md,
              AnnotateContext noopEnv Background forwardAllMux forwardedRequest
              = (Some c, None)
              /\ FromOutgoingContext c = Some md
              /\ valuesOf md "x-forwarded-for" = ["192.0.2.100" +:+ ", " +:+ "192.0.2.200"])).
Proof.
  split; [split; [|split]|split].
  - apply list_elem_of_here.
  - reflexivity.
  - intros (c & md & Ha & Hmd & Hv).
    assert (Hk : AnnotateContext noopEnv Background NewServeMux emptyForwardedRequest
                 = (Some (NewOutgoingContext tracedBackground
                            (Pairs ["x-forwarded-host"; "bar.foo.example.com";
                                    "x-forwarded-for"; "192.0.2.200"])), None))
      by (vm_compute; reflexivity).
    rewrite Hk in Ha. injection Ha as <-.
    rewrite FromOutgoingContext_new in Hmd. injection Hmd as <-.
    vm_compute in Hv. discriminate Hv.
  - apply list_elem_of_here.
  - intros (c & md & Ha & Hmd & Hv).
    assert (Hk : AnnotateContext noopEnv Background forwardAllMux forwardedRequest
                 = (Some (NewOutgoingContext tracedBackground
                            (Pairs ["X-Forwarded-For"; "192.0.2.100";
                                    "x-forwarded-host"; "bar.foo.example.com";
                                    "x-forwarded-for"; "192.0.2.100, 192.0.2.200"])),
                    None))
      by (vm_compute; reflexivity).
    rewrite Hk in Ha. injection Ha as <-.
    rewrite FromOutgoingContext_new in Hmd. injection Hmd as <-.
    vm_compute in Hv. discriminate Hv.
Qed.

(** C3 (amended): let [fwd] be the first value stored under
    [X-Forwarded-For].  On a request whose annotation does not fail and
    whose remote address splits as host:port, a bag is
    produced and its values under [x-forwarded-for] are the values that
    matched headers map to that key, then one chain value, then the
    annotators' values; the chain value is the bare client address when
    [fwd] is empty (header absent or with an empty first value) and
    [fwd], a comma, a space and the client address otherwise.  When the
    remote address is empty or does not split, the forwarded-for step
    adds nothing to the pair list, so that a bag has no chain value
    under [x-forwarded-for]; annotation that does not fail returns no
    error; and whether annotation returns an error, and which, depends
    on the headers alone, never on the remote address. *)
Theorem forwarded_for_chain env ctx mux req :
  let fwd := Get (Header_ req) xForwardedFor in
  (forall ip port,
      Net.SplitHostPort (RemoteAddr req) = Ok (ip, port) ->
      ~ annotationFails env mux req ->
      exists ctx' md,
        annotateContext env ctx mux req = (Some ctx', Some md, None)
        /\ AnnotateContext env ctx mux req = (Some (NewOutgoingContext ctx' md), None)
        /\ AnnotateIncomingContext env ctx mux req
           = (Some (NewIncomingContext ctx' md), None)
        /\ valuesOf md "x-forwarded-for"
           = headerValuesFor mux "x-forwarded-for" (Header_ req)
             ++ [if String.eqb fwd "" then ip else fwd +:+ ", " +:+ ip]
             ++ annotatorValues mux ctx' req "x-forwarded-for")
  /\ (RemoteAddr req = "" \/ is_err (Net.SplitHostPort (RemoteAddr req)) ->
      (forall pairs, forwardedFor req pairs = pairs)
      /\ (forall ctx' md,
            annotateContext env ctx mux req = (Some ctx', Some md, None) ->
            valuesOf md "x-forwarded-for"
            = headerValuesFor mux "x-forwarded-for" (Header_ req)
              ++ annotatorValues mux ctx' req "x-forwarded-for"))
  /\ (~ annotationFails env mux req ->
      (AnnotateContext env ctx mux req).2 = None
      /\ (AnnotateIncomingContext env ctx mux req).2 = None)
  /\ (forall req', Header_ req' = Header_ req ->
      (annotateContext env ctx mux req').2 = (annotateContext env ctx mux req).2).
Proof.
  intros fwd. split; [|split; [|split]].
  - intros ip port Hs Hn.
    destruct (annotate_success env ctx mux req Hn) as (w & Hw & Hsucc).
    cbv zeta in Hsucc. pose proof (forwardedPairs_split req ip port Hs) as Hfp.
    destruct (allPairs mux req) as [|x l] eqn:Hp.
    { exfalso. unfold allPairs in Hp. rewrite Hfp in Hp.
      apply app_eq_nil in Hp as [_ Hp]. apply app_eq_nil in Hp as [_ Hp].
      discriminate Hp. }
    destruct Hsucc as (H1 & H2 & H3).
    eexists _, _. split; [exact H1|]. split; [exact H2|]. split; [exact H3|].
    rewrite (bag_values _ _ _ _ _ _ "x-forwarded-for" H1), Hfp.
    rewrite valuesAt_app, valuesAt_forwardedHost.
    + reflexivity.
    + apply evenLength_forwardedHost.
  - intros Hu. split; [apply forwardedFor_unsplit, Hu|].
    intros ctx' md Ha. rewrite (bag_values _ _ _ _ _ _ "x-forwarded-for" Ha).
    unfold forwardedPairs. rewrite (forwardedFor_unsplit req Hu), valuesAt_forwardedHost.
    reflexivity.
  - intros Hn. destruct (annotate_success env ctx mux req Hn) as (w & _ & Hs).
    cbv zeta in Hs. destruct (allPairs mux req); destruct Hs as (_ & -> & ->);
      split; reflexivity.
  - intros req' Hh. apply annotateContext_error_headers, Hh.
Qed.

(** The theorem at the forwarded request of the test suite and at a
    request without remote address. *)
Lemma forwarded_for_chain_witness :
  (exists ctx' md,
     annotateContext noopEnv Background NewServeMux forwardedRequest
     = (Some ctx', Some md, None)
     /\ valuesOf md "x-forwarded-for" = ["192.0.2.100, 192.0.2.200"])
  /\ forwardedFor hostRequest ["x-forwarded-host"; "example.com"]
     = ["x-forwarded-host"; "example.com"].
Proof.
  destruct (forwarded_for_chain noopEnv Background NewServeMux forwardedRequest)
    as (Hsplit & _).
  destruct (forwarded_for_chain noopEnv Background NewServeMux hostRequest)
    as (_ & Hunsplit & _).
  split.
  - destruct (Hsplit "192.0.2.200" "12345") as (ctx' & md & Ha & _ & _ & Hv).
    + reflexivity.
    + intros [H|[[H _]|H]];
        [exact H | apply H; reflexivity | vm_compute in H; discriminate H].
    + exists ctx', md. split; [exact Ha|]. rewrite Hv. reflexivity.
  - apply Hunsplit. left. reflexivity.
Defined.


(** ** Values of one key across headers *)

Lemma valuesAt_forwardedPairs_other req k :
  k <> "x-forwarded-host" -> k <> "x-forwarded-for" ->
  valuesAt k (forwardedPairs req) = [].
Proof.
  intros Hh Hf. unfold forwardedPairs, forwardedFor, forwardedHost.
  change (ToLower xForwardedHost) with "x-forwarded-host".
  change (ToLower xForwardedFor) with "x-forwarded-for".
  assert (E1 : String.eqb "x-forwarded-host" k = false)
    by (apply String.eqb_neq; congruence).
  assert (E2 : String.eqb "x-forwarded-for" k = false)
    by (apply String.eqb_neq; congruence).
  repeat match goal with
         | |- context [if ?b then _ else _] => destruct b
         | |- context [match ?r with Ok _ => _ | Err _ => _ end] => destruct r as [[? ?]|?]
         end;
    cbn [app valuesAt];
    change (ToLower "x-forwarded-host") with "x-forwarded-host";
    change (ToLower "x-forwarded-for") with "x-forwarded-for";
    rewrite ?E1, ?E2; reflexivity.
Qed.

Lemma values_of_matched_header mux ckey h k vals :
  incomingHeaderMatcher mux ckey = (h, true) ->
  ToLower h = k ->
  ckey <> "Authorization" \/ k <> "authorization" ->
  flat_map (fun val => valuesAt k (emitted mux ckey val)) vals
  = storedValue ckey <$> vals.
Proof.
  intros Hm Hk Ha. induction vals as [|val vals IH]; [reflexivity|].
  cbn [flat_map fmap list_fmap]. rewrite IH. unfold emitted. rewrite Hm.
  destruct (String.eqb_spec ckey "Authorization") as [Heq|_];
    cbn [app valuesAt]; rewrite Hk, String.eqb_refl; [|reflexivity].
  destruct Ha as [Ha|Ha]; [contradiction|].
  change (ToLower "authorization") with "authorization".
  destruct (String.eqb_spec "authorization" k) as [Hk'|_]; [congruence|reflexivity].
Qed.

(** C8: when two entries of the header map have names with the same
    canonical form, matched to the metadata key [h], the bag holds one
    list under the lowercased key, in which the values of the entry
    that the iteration meets first come before the values of the other;
    around them stand, in iteration order, the values that the other
    headers give to that key, then those of the forwarded entries and of
    the annotators.  (The values are the header values, decoded when
    the name has the binary suffix.) *)
Theorem same_key_values_in_iteration_order
    env ctx mux req ctx' md h1 K1 vs1 h2 K2 vs2 h3 h :
  annotateContext env ctx mux req = (Some ctx', Some md, None) ->
  Header_ req = h1 ++ (K1, vs1) :: h2 ++ (K2, vs2) :: h3 ->
  Textproto.CanonicalMIMEHeaderKey K1 = Textproto.CanonicalMIMEHeaderKey K2 ->
  incomingHeaderMatcher mux (Textproto.CanonicalMIMEHeaderKey K1) = (h, true) ->
  Textproto.CanonicalMIMEHeaderKey K1 <> "Authorization"
  \/ ToLower h <> "authorization" ->
  let k := ToLower h in
  let stored := storedValue (Textproto.CanonicalMIMEHeaderKey K1) in
  valuesOf md k
  = headerValuesFor mux k h1 ++ (stored <$> vs1)
    ++ headerValuesFor mux k h2 ++ (stored <$> vs2)
    ++ headerValuesFor mux k h3
    ++ valuesAt k (forwardedPairs req) ++ annotatorValues mux ctx' req k.
Proof.
  intros Ha Hh Hc Hm Hn k stored.
  rewrite (bag_values _ _ _ _ _ _ k Ha), Hh.
  rewrite headerValuesFor_app, headerValuesFor_cons, headerValuesFor_app,
    headerValuesFor_cons.
  rewrite <- Hc.
  rewrite !(values_of_matched_header mux _ h k) by auto.
  rewrite <- !app_assoc. reflexivity.
Qed.

(** The theorem at the two entries [Grpc-Metadata-Foo-BAZ: Value2] and
    [Grpc-Metadata-foo-bAz: Value3] under the default configuration. *)
Lemma same_key_values_witness :
  let bag := Pairs ["foo-baz"; "Value2"; "foo-baz"; "Value3";
                    "x-forwarded-host"; "www.example.com"] in
  let ctx' := ContextWithSpan Background (Opentracing.StartSpan "/" "") in
  annotateContext noopEnv Background NewServeMux caseRequest = (Some ctx', Some bag, None)
  /\ valuesOf bag "foo-baz" = ["Value2"; "Value3"].
Proof.
  cbv zeta.
  assert (Ha : annotateContext noopEnv Background NewServeMux caseRequest
               = (Some (ContextWithSpan Background (Opentracing.StartSpan "/" "")),
                  Some (Pairs ["foo-baz"; "Value2"; "foo-baz"; "Value3";
                               "x-forwarded-host"; "www.example.com"]),
                  None)) by (vm_compute; reflexivity).
  split; [exact Ha|].
  exact (same_key_values_in_iteration_order
           noopEnv Background NewServeMux caseRequest _ _
           [] "Grpc-Metadata-Foo-BAZ" ["Value2"] [] "Grpc-Metadata-foo-bAz" ["Value3"] []
           "foo-baz" Ha eq_refl
           ltac:(vm_compute; reflexivity) ltac:(vm_compute; reflexivity)
           ltac:(left; vm_compute; discriminate)).
Defined.

(** ** The authorization header *)

(** C1 as stated fails on a request that carries an
    authorization header next to a malformed timeout header: annotation
    does not succeed.  It also fails next to a custom metadata header of
    the same name: the list under [authorization] holds two values. *)
Lemma authorization_with_malformed_timeout :
  (("Authorization", ["Token X"]) ∈ Header_ badTimeoutRequest
   /\ ~ (exists c md,
           AnnotateContext noopEnv Background NewServeMux badTimeoutRequest = (Some c, None)
           /\ FromOutgoingContext c = Some md
           /\ valuesOf md "authorization" = ["Token X"]
           /\ valuesOf md "grpcgateway-authorization" = ["Token X"]))
  /\ (("Authorization", ["Token X"]) ∈ Header_ twoTokensRequest
      /\ ~ (exists c md,
              AnnotateContext noopEnv Background NewServeMux twoTokensRequest
              = (Some c, None)
              /\ FromOutgoingContext c = Some md
              /\ valuesOf md "authorization" = ["Token X"]
              /\ valuesOf md "grpcgateway-authorization" = ["Token X"])).
Proof.
  split; (split; [apply list_elem_of_here|]).
  - intros (c & md & Ha & _). vm_compute in Ha. discriminate Ha.
  - intros (c & md & Ha & Hmd & Hv & _).
    assert (Hk : AnnotateContext noopEnv Background NewServeMux twoTokensRequest
                 = (Some (NewOutgoingContext tracedBackground
                            (Pairs ["authorization"; "Token X";
                                    "grpcgateway-authorization"; "Token X";
                                    "authorization"; "Token Y";
                                    "x-forwarded-host"; "www.example.com"])), None))
      by (vm_compute; reflexivity).
    rewrite Hk in Ha. injection Ha as <-.
    rewrite FromOutgoingContext_new in Hmd. injection Hmd as <-.
    vm_compute in Hv. discriminate Hv.
Qed.

Lemma emitted_authorization V :
  emitted NewServeMux "Authorization" V
  = ["authorization"; V; "grpcgateway-authorization"; V].
Proof. reflexivity. Qed.

Lemma authorization_values k vals :
  k = "authorization" \/ k = "grpcgateway-authorization" ->
  flat_map (fun val => valuesAt k (emitted NewServeMux "Authorization" val)) vals = vals.
Proof.
  intros Hk. induction vals as [|v vs IH]; [reflexivity|].
  cbn [flat_map]. rewrite emitted_authorization, IH.
  destruct Hk as [-> | ->]; reflexivity.
Qed.

(** C1 (amended): under the default configuration, on a request whose
    annotation does not fail and one of whose headers has the canonical
    name [Authorization] and values [vals], both operations succeed and
    attach the same bag.  Under [authorization] and under
    [grpcgateway-authorization] the bag lists [vals], between the values
    that the headers met before and after in the iteration give to each
    key; so every value [V] of the header is under both keys, and the
    two lists are exactly [[V]] when [V] is the only value of the header
    and no other header contributes to either key. *)
Theorem authorization_passthrough env ctx req h1 K vals h2 V :
  ~ annotationFails env NewServeMux req ->
  Header_ req = h1 ++ (K, vals) :: h2 ->
  Textproto.CanonicalMIMEHeaderKey K = "Authorization" ->
  V ∈ vals ->
  exists ctx' md,
    AnnotateContext env ctx NewServeMux req = (Some (NewOutgoingContext ctx' md), None)
    /\ FromOutgoingContext (NewOutgoingContext ctx' md) = Some md
    /\ AnnotateIncomingContext env ctx NewServeMux req
       = (Some (NewIncomingContext ctx' md), None)
    /\ FromIncomingContext (NewIncomingContext ctx' md) = Some md
    /\ valuesOf md "authorization"
       = headerValuesFor NewServeMux "authorization" h1 ++ vals
         ++ headerValuesFor NewServeMux "authorization" h2
    /\ valuesOf md "grpcgateway-authorization"
       = headerValuesFor NewServeMux "grpcgateway-authorization" h1 ++ vals
         ++ headerValuesFor NewServeMux "grpcgateway-authorization" h2
    /\ V ∈ valuesOf md "authorization"
    /\ V ∈ valuesOf md "grpcgateway-authorization"
    /\ (vals = [V] ->
        headerValuesFor NewServeMux "authorization" (h1 ++ h2) = [] ->
        headerValuesFor NewServeMux "grpcgateway-authorization" (h1 ++ h2) = [] ->
        valuesOf md "authorization" = [V]
        /\ valuesOf md "grpcgateway-authorization" = [V]).
Proof.
  intros Hn Hh Hc HV.
  destruct (annotate_success env ctx NewServeMux req Hn) as (w & Hw & Hs).
  cbv zeta in Hs.
  assert (Hvals : forall k, k = "authorization" \/ k = "grpcgateway-authorization" ->
            headerValuesFor NewServeMux k (Header_ req)
            = headerValuesFor NewServeMux k h1 ++ vals ++ headerValuesFor NewServeMux k h2).
  { intros k Hk. rewrite Hh, headerValuesFor_app, headerValuesFor_cons, Hc.
    rewrite (authorization_values k vals Hk). reflexivity. }
  destruct (allPairs NewServeMux req) as [|x l] eqn:Hp.
  { exfalso. unfold allPairs in Hp. apply app_eq_nil in Hp as [Hp _].
    pose proof (Hvals "authorization" (or_introl eq_refl)) as Hv.
    unfold headerValuesFor in Hv at 1. rewrite Hp in Hv. cbn [valuesAt] in Hv.
    symmetry in Hv. apply app_eq_nil in Hv as [_ Hv]. apply app_eq_nil in Hv as [Hv _].
    subst vals. inversion HV. }
  destruct Hs as (H1 & H2 & H3).
  assert (Hbag : forall k, k = "authorization" \/ k = "grpcgateway-authorization" ->
            valuesOf (fullBag NewServeMux
                        (derivedContext env ctx req w (resolvedTimeout env req)) req) k
            = headerValuesFor NewServeMux k h1 ++ vals ++ headerValuesFor NewServeMux k h2).
  { intros k Hk. rewrite (bag_values _ _ _ _ _ _ k H1), (Hvals k Hk).
    rewrite valuesAt_forwardedPairs_other by (destruct Hk as [-> | ->]; discriminate).
    unfold annotatorValues. cbn [metadataAnnotators NewServeMux map concat].
    rewrite !app_nil_r. reflexivity. }
  eexists _, _. split; [exact H2|]. split; [apply FromOutgoingContext_new|].
  split; [exact H3|]. split; [apply FromIncomingContext_new|].
  rewrite !Hbag by auto.
  split; [reflexivity|]. split; [reflexivity|].
  split; [rewrite !elem_of_app; auto|]. split; [rewrite !elem_of_app; auto|].
  intros -> Ha Hg. rewrite headerValuesFor_app in Ha, Hg.
  apply app_eq_nil in Ha as [-> ->]. apply app_eq_nil in Hg as [-> ->].
  split; reflexivity.
Qed.

(** The theorem at the request of the test suite. *)
Lemma authorization_passthrough_witness :
  ~ annotationFails noopEnv NewServeMux tokenRequest
  /\ exists ctx' md,
      AnnotateContext noopEnv Background NewServeMux tokenRequest
      = (Some (NewOutgoingContext ctx' md), None)
      /\ AnnotateIncomingContext noopEnv Background NewServeMux tokenRequest
         = (Some (NewIncomingContext ctx' md), None)
      /\ valuesOf md "authorization" = ["Token 1234567890"]
      /\ valuesOf md "grpcgateway-authorization" = ["Token 1234567890"].
Proof.
  assert (Hn : ~ annotationFails noopEnv NewServeMux tokenRequest).
  { intros [H|[[H _]|H]];
      [exact H | apply H; vm_compute; reflexivity | vm_compute in H; discriminate H]. }
  split; [exact Hn|].
  destruct (authorization_passthrough noopEnv Background tokenRequest
              [("Some-Irrelevant-Header", ["some value"]);
               ("Grpc-Metadata-Foobar", ["Value1"]);
               ("Grpc-Metadata-Foo-Baz", ["Value2"; "Value3"])]
              "Authorization" ["Token 1234567890"] [] "Token 1234567890"
              Hn eq_refl ltac:(vm_compute; reflexivity) ltac:(apply list_elem_of_here))
    as (ctx' & md & H1 & _ & H2 & _ & _ & _ & _ & _ & Hexact).
  exists ctx', md. split; [exact H1|]. split; [exact H2|].
  apply Hexact; [reflexivity | vm_compute; reflexivity | vm_compute; reflexivity].
Defined.

(** ** The test suite of the repository *)

(** The concrete requests are header maps: no key occurs twice. *)
Lemma concreteRequests_wf : Forall (fun req => wf_header (Header_ req)) concreteRequests.
Proof.
  unfold concreteRequests, wf_header.
  repeat (apply Forall_cons; split; [apply (bool_decide_unpack _); vm_compute; exact I|]).
  apply Forall_nil. exact I.
Qed.

(** [TestAnnotateContext_WorksWithEmpty]: one metadata item. *)
Lemma test_WorksWithEmpty :
  exists c md,
    AnnotateContext noopEnv Background NewServeMux hostRequest = (Some c, None)
    /\ FromOutgoingContext c = Some md
    /\ size md = 1%nat.
Proof. eexists _, _. repeat split; vm_compute; reflexivity. Qed.

(** [TestAnnotateContext_ForwardsGrpcMetadata]: five items with the
    expected values. *)
Lemma test_ForwardsGrpcMetadata :
  exists c md,
    AnnotateContext noopEnv Background NewServeMux tokenRequest = (Some c, None)
    /\ FromOutgoingContext c = Some md
    /\ size md = 5%nat
    /\ md !! "foobar" = Some ["Value1"]
    /\ md !! "foo-baz" = Some ["Value2"; "Value3"]
    /\ md !! "grpcgateway-authorization" = Some ["Token 1234567890"]
    /\ md !! "authorization" = Some ["Token 1234567890"].
Proof. eexists _, _. repeat split; vm_compute; reflexivity. Qed.

(** [TestAnnotateContext_ForwardGrpcBinaryMetadata] *)
Lemma test_ForwardGrpcBinaryMetadata :
  let binData := String "000" "test-binary-data" in
  let req := {| Header_ := [("Grpc-Metadata-Test-Bin",
                             [Base64.EncodeToString Base64.StdEncoding (bytes binData)])];
                Host := "www.example.com"; RemoteAddr := ""; URLPath := "/" |} in
  exists c md,
    AnnotateContext noopEnv Background NewServeMux req = (Some c, None)
    /\ FromOutgoingContext c = Some md
    /\ size md = 2%nat
    /\ md !! "test-bin" = Some [binData].
Proof. eexists _, _. repeat split; vm_compute; reflexivity. Qed.

(** [TestAnnotateContext_XForwardedFor]: client first, then the proxy. *)
Lemma test_XForwardedFor :
  exists c md,
    AnnotateContext noopEnv Background NewServeMux forwardedRequest = (Some c, None)
    /\ FromOutgoingContext c = Some md
    /\ size md = 2%nat
    /\ md !! "x-forwarded-host" = Some ["bar.foo.example.com"]
    /\ md !! "x-forwarded-for" = Some ["192.0.2.100, 192.0.2.200"].
Proof. eexists _, _. repeat split; vm_compute; reflexivity. Qed.

(** [TestAnnotateContext_SupportsTimeouts]: no deadline by default, the
    default timeout when it is set, and the six units. *)
Lemma test_SupportsTimeouts :
  (exists c, AnnotateContext noopEnv Background NewServeMux hostRequest = (Some c, None)
             /\ Deadline c = None)
  /\ (exists c, AnnotateContext tenSecondEnv Background NewServeMux hostRequest = (Some c, None)
                /\ Deadline c = Some (now tenSecondEnv + 10 * Second))
  /\ Forall (fun '(timeout, want) =>
       exists c,
         AnnotateContext tenSecondEnv Background NewServeMux
           {| Header_ := [("Grpc-Timeout", [timeout])]; Host := "example.com";
              RemoteAddr := ""; URLPath := "/" |} = (Some c, None)
         /\ Deadline c = Some (now tenSecondEnv + want))
       [("17H", 17 * Hour); ("19M", 19 * Minute); ("23S", 23 * Second);
        ("1009m", 1009 * Millisecond); ("1000003u", 1000003 * Microsecond);
        ("100000007n", 100000007 * Nanosecond)].
Proof.
  split; [|split].
  - eexists. split; vm_compute; reflexivity.
  - eexists. split; vm_compute; reflexivity.
  - repeat (apply Forall_cons; split; [eexists; split; vm_compute; reflexivity|]).
    apply Forall_nil. exact I.
Qed.

(** [TestAnnotateContext_SupportsCustomAnnotators] *)
Lemma test_SupportsCustomAnnotators :
  exists c md,
    AnnotateContext noopEnv Background
      (WithMetadata bazQux (WithMetadata fooBar NewServeMux)) hostRequest = (Some c, None)
    /\ FromOutgoingContext c = Some md
    /\ md !! "foo" = Some ["bar"]
    /\ md !! "baz" = Some ["qux"].
Proof. eexists _, _. repeat split; vm_compute; reflexivity. Qed.

(** ** The library models on known values *)

(** The test vectors of RFC 4648, padded and raw. *)
Lemma base64_rfc4648_vectors :
  Forall (fun '(plain, padded, raw) =>
            Base64.EncodeToString Base64.StdEncoding (bytes plain) = padded
            /\ Base64.EncodeToString Base64.RawStdEncoding (bytes plain) = raw
            /\ Base64.DecodeString Base64.StdEncoding padded = Ok (bytes plain)
            /\ Base64.DecodeString Base64.RawStdEncoding raw = Ok (bytes plain))
    [("", "", ""); ("f", "Zg==", "Zg"); ("fo", "Zm8=", "Zm8");
     ("foo", "Zm9v", "Zm9v"); ("foob", "Zm9vYg==", "Zm9vYg");
     ("fooba", "Zm9vYmE=", "Zm9vYmE"); ("foobar", "Zm9vYmFy", "Zm9vYmFy")].
Proof.
  repeat (apply Forall_cons; split; [repeat split; vm_compute; reflexivity|]).
  apply Forall_nil. exact I.
Qed.

(** Inputs that the decoders reject: padding in the wrong place or of
    the wrong length, padding with the raw encoding, bytes outside the
    alphabet, a lone character. *)
Lemma base64_rejected :
  Forall (fun s => is_err (Base64.DecodeString Base64.StdEncoding s))
         ["Zg="; "Zg"; "Z"; "=Zg="; "Zm8=Zg=="; "Zm9v!A=="]
  /\ Forall (fun s => is_err (Base64.DecodeString Base64.RawStdEncoding s))
            ["Zg=="; "Z"; "Zm9v*"].
Proof.
  split; repeat (apply Forall_cons; split; [exact I|]); apply Forall_nil; exact I.
Qed.

Lemma CanonicalMIMEHeaderKey_examples :
  Textproto.CanonicalMIMEHeaderKey "accept-encoding" = "Accept-Encoding"
  /\ Textproto.CanonicalMIMEHeaderKey "USER-AGENT" = "User-Agent"
  /\ Textproto.CanonicalMIMEHeaderKey "x-forwarded-for" = "X-Forwarded-For"
  /\ Textproto.CanonicalMIMEHeaderKey "uSER aGENT" = "uSER aGENT".
Proof. repeat split; reflexivity. Qed.

Lemma SplitHostPort_examples :
  Net.SplitHostPort "192.0.2.200:12345" = Ok ("192.0.2.200", "12345")
  /\ Net.SplitHostPort "[2001:db8::1]:80" = Ok ("2001:db8::1", "80")
  /\ Net.SplitHostPort "example.com:" = Ok ("example.com", "")
  /\ is_err (Net.SplitHostPort "")
  /\ is_err (Net.SplitHostPort "192.0.2.200")
  /\ is_err (Net.SplitHostPort "2001:db8::1:80")
  /\ is_err (Net.SplitHostPort "[2001:db8::1]")
  /\ is_err (Net.SplitHostPort "[2001:db8::1]80:").
Proof. repeat split; solve [reflexivity | exact I]. Qed.

Lemma ParseInt10_examples :
  Strconv.ParseInt10 "0" = Ok 0
  /\ Strconv.ParseInt10 "+17" = Ok 17
  /\ Strconv.ParseInt10 "-0017" = Ok (-17)
  /\ Strconv.ParseInt10 "9223372036854775807" = Ok (2 ^ 63 - 1)
  /\ Strconv.ParseInt10 "-9223372036854775808" = Ok (- 2 ^ 63)
  /\ Strconv.ParseInt10 "9223372036854775808" = Err Strconv.ErrRange
  /\ Strconv.ParseInt10 "99999999999999999999999" = Err Strconv.ErrRange
  /\ Strconv.ParseInt10 "" = Err Strconv.ErrSyntax
  /\ Strconv.ParseInt10 "-" = Err Strconv.ErrSyntax
  /\ Strconv.ParseInt10 "1_000" = Err Strconv.ErrSyntax
  /\ Strconv.ParseInt10 "0x10" = Err Strconv.ErrSyntax
  /\ Strconv.ParseInt10 " 1" = Err Strconv.ErrSyntax.
Proof. repeat split; reflexivity. Qed.
